(** * SQDToolz instrument drivers: segmented sweep acquisition and ramp rates

    A shallow embedding of

    - [Keysight_N9323C.get_data] and the [SweepPoints] property
      (sqdtoolz/Drivers/SA_Keysight_N9323C.py), and
    - the [RampRateVoltage] / [RampRateCurrent] properties of
      [SiglentSPD4306Channel] (sqdtoolz/Drivers/SMU_Siglent_SPD4306X.py),
      and
    - the port state, the [Position] property and [set_ports_to_default]
      of the DC switch box (sqdtoolz/Drivers/SW_DCBreakoutBox.py), in
      module [DCBox].

    The drivers compute on Python floats.  Two readings of their arithmetic
    are given.  The driver model and the general theorems read a float as a
    rational [Q]: they are statements of exact arithmetic, equality of
    frequencies is [Qeq] and equality of frequency lists is pointwise
    [Qeq].  Module [B64] evaluates the same source expressions on binary64
    floats, with every rounding the interpreter makes; it is used where
    rounding changes what a statement says of the program.

    The instrument is an arbitrary function from the transport calls made
    so far and the next call to a reply or a transport failure, so nothing
    is assumed about how it reacts to the commands it is sent.  The three
    [print] statements of [get_data] and the outer [{'data': ...}]
    dictionary of its result are left out. *)

From Stdlib Require Import ZArith QArith Qround Qminmax List Lia Lqa Bool.
From Stdlib Require PrimFloat FloatOps SpecFloat Uint63.
From Stdlib Require Strings.Byte String DecimalString.
Import ListNotations.

Open Scope Q_scope.

(** ** Numerical helpers standing for numpy and the Python builtins *)

Module Np.

(** [np.linspace(start, stop, num)] with the default [endpoint=True]:
    [num] samples [start + k * step], [step = (stop - start) / (num - 1)],
    the last one overwritten by [stop] itself when [num > 1]. *)
Definition linspace_step (start stop : Q) (num : nat) : Q :=
  (stop - start) / inject_Z (Z.of_nat (num - 1)).

Definition linspace_at (start stop : Q) (num k : nat) : Q :=
  if (Nat.ltb 1 num && Nat.eqb k (num - 1))%bool then stop
  else inject_Z (Z.of_nat k) * linspace_step start stop num + start.

Definition linspace (start stop : Q) (num : nat) : list Q :=
  map (linspace_at start stop num) (seq 0 num).

(** [np.ceil] followed by [int]. *)
Definition ceil (x : Q) : Z := Qceiling x.

(** [np.concatenate] of a Python list of arrays. *)
Definition concatenate (parts : list (list Q)) : list Q := concat parts.

(** Python's [min(a, b)]: [b] only when [b < a]. *)
Definition min (a b : Q) : Q := Qmin a b.

End Np.

(** Pointwise [Qeq] on lists of samples. *)
Definition Qlist_eq (l1 l2 : list Q) : Prop := Forall2 Qeq l1 l2.

Infix "=q=" := Qlist_eq (at level 70, no associativity).

(** A list of samples is non-decreasing when each sample is at most its
    successor. *)
Fixpoint nondecreasing (l : list Q) : Prop :=
  match l with
  | [] => True
  | x :: tl =>
      match tl with
      | [] => True
      | y :: _ => x <= y /\ nondecreasing tl
      end
  end.

(** ** The segmentation arithmetic of [get_data] *)

(** The literal [5e8]: the widest span one 461-point sweep is used for. *)
Definition max_segment_span : Q := 500000000.

(** The fixed number of points of one sweep. *)
Definition sample_count : nat := 461.

(** [num_segments = int(np.ceil(span / 5e8))]. *)
Definition num_segments (span : Q) : Z := Np.ceil (span / max_segment_span).

(** [seg_start = start_freq + seg * 5e8]. *)
Definition seg_start (start_freq : Q) (seg : nat) : Q :=
  start_freq + inject_Z (Z.of_nat seg) * max_segment_span.

(** [seg_stop = min(seg_start + 5e8, stop_freq)]. *)
Definition seg_stop (start_freq stop_freq : Q) (seg : nat) : Q :=
  Np.min (seg_start start_freq seg + max_segment_span) stop_freq.

(** [range(num_segments)]: empty when [num_segments <= 0]. *)
Definition range (n : Z) : list nat := seq 0 (Z.to_nat n).

(** [freqs = np.linspace(seg_start, seg_stop, 461)] of one segment. *)
Definition segment_freqs (start_freq stop_freq : Q) (seg : nat) : list Q :=
  Np.linspace (seg_start start_freq seg) (seg_stop start_freq stop_freq seg)
              sample_count.

(** The list [freqs_per_segment] built by the first loop. *)
Definition freqs_per_segment (span start_freq stop_freq : Q) : list (list Q) :=
  map (segment_freqs start_freq stop_freq) (range (num_segments span)).

(** ** The instrument seen through the VISA transport *)

Module Visa.

(** The SCPI messages the driver sends, one constructor per command string;
    a trailing [_q] stands for the question mark of a query. *)
Inductive scpi : Type :=
| SENS_FREQ_SPAN_q          (* SENSe:FREQuency:SPAN?    *)
| FREQ_STAR_q               (* FREQuency:STARt?         *)
| FREQ_STOP_q               (* FREQuency:STOP?          *)
| AVER_TRAC1_STAT_q         (* :AVERage:TRACe1:STATe?   *)
| AVER_TRAC1_COUN_q         (* :AVERage:TRACe1:COUNt?   *)
| FREQ_STAR (f : Q)         (* FREQ:STAR {f}            *)
| FREQ_STOP (f : Q)         (* FREQ:STOP {f}            *)
| INIT_CONT_OFF             (* INIT:CONT OFF            *)
| CLS_INIT_IMM_OPC_q        (* *CLS;INIT:IMM;*OPC?      *)
| AVER_TRAC1_STAT (b : Z)   (* :AVERage:TRACe1:STATe {b} *)
| AVER_TRAC1_COUN (n : Z)   (* :AVERage:TRACe1:COUNt {n} *)
| AVER_TRAC1_CLE            (* :AVERage:TRACe1:CLEar    *)
| TRACE_DATA_TRACE1_q       (* trace:data? trace1       *)
| INIT_CONT_1.              (* INIT:CONT 1              *)

(** The three transport calls of the driver: [self.write], [self.ask]
    (write, then block for the reply) and
    [self.visa_handle.query_ascii_values]. *)
Inductive io : Type :=
| Write (c : scpi)
| Ask (c : scpi)
| QueryAsciiValues (c : scpi).

(** What comes back, already tokenised: nothing, an integer literal, a
    decimal literal, or a comma separated list of numbers. *)
Inductive reply : Type :=
| NoReply
| Integer (z : Z)
| Number (q : Q)
| Values (l : list Q).

(** An instrument answers a transport call from the calls it has seen so
    far; [None] is a transport failure (time-out, lost connection). *)
Definition instrument : Type := list io -> io -> option reply.

End Visa.
Import Visa.

(** ** Exceptions and the driver monad *)

Inductive exn : Type :=
| VisaIOError
| ValueError
| KeyError
| IndexError
| NotImplementedError
| ZeroDivisionError.

Inductive result (A : Type) : Type :=
| Ok (a : A)
| Raise (e : exn).
Arguments Ok {A} a.
Arguments Raise {A} e.

(** A driver method runs against an instrument and the list of transport
    calls issued so far (oldest first); it returns a value or raises, and
    the extended list of calls. *)
Definition M (A : Type) : Type := instrument -> list io -> result A * list io.

Definition ret {A : Type} (a : A) : M A := fun _ h => (Ok a, h).

Definition raise {A : Type} (e : exn) : M A := fun _ h => (Raise e, h).

Definition bind {A B : Type} (m : M A) (k : A -> M B) : M B :=
  fun I h =>
    match m I h with
    | (Ok a, h') => k a I h'
    | (Raise e, h') => (Raise e, h')
    end.

Declare Scope drv_scope.
Delimit Scope drv_scope with drv.
Notation "x <- m ;; k" := (bind m (fun x => k))
  (at level 100, m at next level, right associativity) : drv_scope.
Notation "m ;;; k" := (bind m (fun _ => k))
  (at level 100, right associativity) : drv_scope.
Open Scope drv_scope.

(** One transport call: it is recorded, then the instrument answers or the
    transport raises. *)
Definition transact (c : io) : M reply :=
  fun I h =>
    match I h c with
    | Some r => (Ok r, h ++ [c])
    | None => (Raise VisaIOError, h ++ [c])
    end.

Definition write (c : scpi) : M unit := _ <- transact (Write c) ;; ret tt.

Definition ask (c : scpi) : M reply := transact (Ask c).

(** [get_parser=float]. *)
Definition parse_float (r : reply) : M Q :=
  match r with
  | Number q => ret q
  | Integer z => ret (inject_Z z)
  | _ => raise ValueError
  end.

(** [get_parser=int]. *)
Definition parse_int (r : reply) : M Z :=
  match r with
  | Integer z => ret z
  | _ => raise ValueError
  end.

(** [val_mapping = {True: 1, False: 0}] read backwards. *)
Definition parse_bool (r : reply) : M bool :=
  match r with
  | Integer 1 => ret true
  | Integer 0 => ret false
  | _ => raise KeyError
  end.

(** [query_ascii_values(..., separator=',', converter='f')]. *)
Definition query_ascii_values (c : scpi) : M (list Q) :=
  r <- transact (QueryAsciiValues c) ;;
  match r with
  | Values l => ret l
  | _ => raise ValueError
  end.

(** [int(b)] of a Python bool. *)
Definition int_of_bool (b : bool) : Z := if b then 1%Z else 0%Z.

(** ** The parameters and properties [get_data] reads *)

Definition sense_frequency_span : M Q := r <- ask SENS_FREQ_SPAN_q ;; parse_float r.
Definition sense_frequency_start : M Q := r <- ask FREQ_STAR_q ;; parse_float r.
Definition sense_frequency_stop : M Q := r <- ask FREQ_STOP_q ;; parse_float r.
Definition average_enable : M bool := r <- ask AVER_TRAC1_STAT_q ;; parse_bool r.
Definition average_count : M Z := r <- ask AVER_TRAC1_COUN_q ;; parse_int r.

Definition AveragesEnable : M bool := average_enable.
Definition AveragesNum : M Z := average_count.

(** The [SweepPoints] property: a constant getter and a setter that only
    raises. *)
Definition SweepPoints : M nat := ret 461%nat.

Definition set_SweepPoints {V : Type} (vals : V) : M unit :=
  raise NotImplementedError.

(** ** [get_data] *)

(** The dictionary [ret_data], by its two arrays: [data['Power_dBm']] and
    [parameter_values['Frequency']]; the constant ['parameters'] entry is
    left out. *)
Record ret_data : Type := mk_ret_data {
  Power_dBm : list Q;
  Frequency : list Q
}.

(** What the caller had configured, as [get_data] reads it back in its first
    five statements. *)
Record request : Type := mk_request {
  span : Q;
  start_freq : Q;
  stop_freq : Q;
  average_state : bool;
  average_cnt : Z
}.

Definition read_request : M request :=
  sp <- sense_frequency_span ;;
  st <- sense_frequency_start ;;
  en <- sense_frequency_stop ;;
  a_state <- AveragesEnable ;;
  a_count <- AveragesNum ;;
  ret (mk_request sp st en a_state a_count).

(** [np.concatenate(freqs_per_segment)]; numpy refuses an empty list. *)
Definition concatenate_freqs (parts : list (list Q)) : M (list Q) :=
  match parts with
  | [] => raise ValueError
  | _ => ret (Np.concatenate parts)
  end.

(** [wfm_x[0]] and [wfm_x[-1]]. *)
Definition first_sample (l : list Q) : M Q :=
  match l with
  | [] => raise IndexError
  | x :: _ => ret x
  end.

Definition last_sample (l : list Q) : M Q :=
  match l with
  | [] => raise IndexError
  | _ => ret (last l 0)
  end.

(** The body of the second loop for one segment; it hands back the
    extended [wfm_data]. *)
Definition acquire_segment (rq : request) (seg : nat) (wfm_data : list Q)
  : M (list Q) :=
  let s_start := seg_start (start_freq rq) seg in
  let s_stop := seg_stop (start_freq rq) (stop_freq rq) seg in
  write (FREQ_STAR s_start) ;;;
  write (FREQ_STOP s_stop) ;;;
  write INIT_CONT_OFF ;;;
  _ <- ask CLS_INIT_IMM_OPC_q ;;
  write (AVER_TRAC1_STAT (int_of_bool (average_state rq))) ;;;
  write (AVER_TRAC1_COUN (average_cnt rq)) ;;;
  write AVER_TRAC1_CLE ;;;
  seg_data <- query_ascii_values TRACE_DATA_TRACE1_q ;;
  ret (wfm_data ++ seg_data).

(** The second loop, over [range(num_segments)]. *)
Fixpoint acquire_segments (rq : request) (segs : list nat) (wfm_data : list Q)
  : M (list Q) :=
  match segs with
  | [] => ret wfm_data
  | seg :: rest =>
      wfm_data' <- acquire_segment rq seg wfm_data ;;
      acquire_segments rq rest wfm_data'
  end.

(** Everything after the request has been read: the frequency axis, the
    segment loop, the restoration, the result dictionary and the optional
    [data_processor]. *)
Definition stitch (rq : request) (data_processor : option (ret_data -> ret_data))
  : M ret_data :=
  let n := num_segments (span rq) in
  wfm_x <- concatenate_freqs
             (freqs_per_segment (span rq) (start_freq rq) (stop_freq rq)) ;;
  wfm_data <- acquire_segments rq (range n) [] ;;
  x0 <- first_sample wfm_x ;;
  write (FREQ_STAR x0) ;;;
  xl <- last_sample wfm_x ;;
  write (FREQ_STOP xl) ;;;
  write INIT_CONT_1 ;;;
  let data := mk_ret_data wfm_data wfm_x in
  match data_processor with
  | Some leProc => ret (leProc data)
  | None => ret data
  end.

Definition get_data (data_processor : option (ret_data -> ret_data))
  : M ret_data :=
  rq <- read_request ;;
  stitch rq data_processor.

(** ** The transport calls a run is expected to issue *)

(** The five configuration queries at the head of [get_data]. *)
Definition request_queries : list io :=
  [Ask SENS_FREQ_SPAN_q; Ask FREQ_STAR_q; Ask FREQ_STOP_q;
   Ask AVER_TRAC1_STAT_q; Ask AVER_TRAC1_COUN_q].

(** Window, single sweep with completion query, averaging state, averaging
    count, averaging restart, trace read. *)
Definition segment_commands (rq : request) (seg : nat) : list io :=
  [Write (FREQ_STAR (seg_start (start_freq rq) seg));
   Write (FREQ_STOP (seg_stop (start_freq rq) (stop_freq rq) seg));
   Write INIT_CONT_OFF;
   Ask CLS_INIT_IMM_OPC_q;
   Write (AVER_TRAC1_STAT (int_of_bool (average_state rq)));
   Write (AVER_TRAC1_COUN (average_cnt rq));
   Write AVER_TRAC1_CLE;
   QueryAsciiValues TRACE_DATA_TRACE1_q].

(** The calls of a segment that precede its trace read. *)
Definition segment_setup (rq : request) (seg : nat) : list io :=
  removelast (segment_commands rq seg).

(** Window back to the two ends of the axis, continuous sweep back on. *)
Definition restore_commands (wfm_x : list Q) : list io :=
  [Write (FREQ_STAR (hd 0 wfm_x)); Write (FREQ_STOP (last wfm_x 0));
   Write INIT_CONT_1].

Definition is_continuous_enable (c : io) : bool :=
  match c with
  | Write INIT_CONT_1 => true
  | _ => false
  end.

Definition is_trace_read (c : io) : bool :=
  match c with
  | QueryAsciiValues TRACE_DATA_TRACE1_q => true
  | _ => false
  end.

(** The stitched axis [wfm_x] of a request. *)
Definition wfm_x_of (rq : request) : list Q :=
  Np.concatenate
    (freqs_per_segment (span rq) (start_freq rq) (stop_freq rq)).

(** All calls of a complete acquisition after the request was read. *)
Definition acquisition_script (rq : request) : list io :=
  flat_map (segment_commands rq) (range (num_segments (span rq)))
  ++ restore_commands (wfm_x_of rq).

(** The result handed to the caller, through the [data_processor] if one
    was passed. *)
Definition processed (data_processor : option (ret_data -> ret_data))
           (data : ret_data) : ret_data :=
  match data_processor with
  | Some leProc => leProc data
  | None => data
  end.

(** An instrument that never fails a call and answers every trace read
    with a list of numbers. *)
Definition responsive (I : instrument) : Prop :=
  (forall h c, I h (Write c) <> None) /\
  (forall h c, I h (Ask c) <> None) /\
  (forall h, exists l, I h (QueryAsciiValues TRACE_DATA_TRACE1_q)
                       = Some (Values l)).

(** Every trace read the instrument answers has exactly 461 values. *)
Definition traces_full (I : instrument) : Prop :=
  forall h l,
    I h (QueryAsciiValues TRACE_DATA_TRACE1_q) = Some (Values l) ->
    length l = sample_count.

(** ** Ramp rates of the SPD4306X channels *)

Module SPD4306X.

(** The two attributes of a qcodes parameter the ramp rate lives in. *)
Record parameter : Type := mk_parameter {
  step : Q;
  inter_delay : Q
}.

(** A channel, by its [voltage] and [current] parameters. *)
Record channel : Type := mk_channel {
  voltage : parameter;
  current : parameter
}.

(** Python's [<], on exact values. *)
Definition lt (a b : Q) : bool := negb (Qle_bool b a).

(** Python's [/], on exact values: it raises on a zero divisor. *)
Definition true_div (a b : Q) : result Q :=
  if Qeq_bool b 0 then Raise ZeroDivisionError else Ok (a / b).

(** The [if]/[elif] chain of either setter: the step chosen for a rate. *)
Definition step_for (ramp_rate : Q) : Q :=
  if lt ramp_rate (1 # 100) then 1 # 1000
  else if lt ramp_rate (1 # 10) then 1 # 100
  else if lt ramp_rate 1 then 1 # 10
  else 1.

Definition RampRateVoltage (ch : channel) : result Q :=
  true_div (step (voltage ch)) (inter_delay (voltage ch)).

(** The setter assigns [step] first; a raising division leaves it
    assigned, and so does a negative delay, which the [inter_delay] setter
    of qcodes refuses with [ValueError]. *)
Definition set_RampRateVoltage (val : Q) (ch : channel)
  : result unit * channel :=
  let ramp_rate := val in
  let st := step_for ramp_rate in
  let ch1 := mk_channel (mk_parameter st (inter_delay (voltage ch))) (current ch) in
  match true_div (step (voltage ch1)) ramp_rate with
  | Ok d =>
      if lt d 0 then (Raise ValueError, ch1)
      else (Ok tt, mk_channel (mk_parameter st d) (current ch))
  | Raise e => (Raise e, ch1)
  end.

Definition RampRateCurrent (ch : channel) : result Q :=
  true_div (step (current ch)) (inter_delay (current ch)).

Definition set_RampRateCurrent (val : Q) (ch : channel)
  : result unit * channel :=
  let ramp_rate := val in
  let st := step_for ramp_rate in
  let ch1 := mk_channel (voltage ch) (mk_parameter st (inter_delay (current ch))) in
  match true_div (step (current ch1)) ramp_rate with
  | Ok d =>
      if lt d 0 then (Raise ValueError, ch1)
      else (Ok tt, mk_channel (voltage ch) (mk_parameter st d))
  | Raise e => (Raise e, ch1)
  end.

End SPD4306X.

(** ** The same expressions on binary64 floats *)

Module B64.
Import PrimFloat FloatOps SpecFloat.
#[local] Set Warnings "-inexact-float".
#[local] Open Scope float_scope.

(** A Python [int] used as a float; the loop indices and sample numbers
    converted here stay far below [2^63]. *)
Definition of_int (n : nat) : float :=
  of_uint63 (Uint63.of_Z (Z.of_nat n)).

(** [int(np.ceil(x))]; there is no value for [nan] and the infinities,
    where [int] raises. *)
Definition int_ceil (x : float) : option Z :=
  match Prim2SF x with
  | S754_zero _ => Some 0%Z
  | S754_finite s m e =>
      let num := if s then Z.neg m else Z.pos m in
      Some (if (0 <=? e)%Z then (num * 2 ^ e)%Z
            else (- ((- num) / 2 ^ (- e)))%Z)
  | _ => None
  end.

(** The literal [5e8]. *)
Definition max_segment_span : float := 5e8.

(** [num_segments = int(np.ceil(span / 5e8))]. *)
Definition num_segments (span : float) : option Z :=
  int_ceil (span / max_segment_span).

(** [seg_start = start_freq + seg * 5e8]. *)
Definition seg_start (start_freq : float) (seg : nat) : float :=
  start_freq + of_int seg * max_segment_span.

(** Python's [min(a, b)]: [b] only when [b < a]. *)
Definition min (a b : float) : float := if b <? a then b else a.

(** [seg_stop = min(seg_start + 5e8, stop_freq)]. *)
Definition seg_stop (start_freq stop_freq : float) (seg : nat) : float :=
  min (seg_start start_freq seg + max_segment_span) stop_freq.

(** [np.linspace(start, stop, num)]: [step = (stop - start) / (num - 1)],
    sample [k] is [k * step + start] (or [k / (num - 1) * (stop - start) +
    start] when the step is zero), and the last sample is overwritten by
    [stop]. *)
Definition linspace_at (start stop : float) (num k : nat) : float :=
  if (Nat.ltb 1 num && Nat.eqb k (num - 1))%bool then stop
  else
    let div := of_int (num - 1) in
    let delta := stop - start in
    let step := delta / div in
    (if step =? 0 then of_int k / div * delta else of_int k * step) + start.

Definition linspace (start stop : float) (num : nat) : list float :=
  map (linspace_at start stop num) (seq 0 num).

(** The axis [wfm_x] of the first loop and [np.concatenate]; there is none
    when [int] raises and when there is no segment to concatenate. *)
Definition wfm_x (span start_freq stop_freq : float) : option (list float) :=
  match num_segments span with
  | None => None
  | Some n =>
      match Z.to_nat n with
      | O => None
      | count =>
          Some (concat
                  (map (fun seg =>
                          linspace (seg_start start_freq seg)
                                   (seg_stop start_freq stop_freq seg) 461)
                       (seq 0 count)))
      end
  end.

(** Is some sample larger than its successor? *)
Fixpoint decreases (l : list float) : bool :=
  match l with
  | [] => false
  | x :: tl =>
      match tl with
      | [] => false
      | y :: _ => (y <? x) || decreases tl
      end
  end.

(** The ramp rate properties of the SPD4306X channels. *)
Record parameter : Type := mk_parameter {
  step : float;
  inter_delay : float
}.

Record channel : Type := mk_channel {
  voltage : parameter;
  current : parameter
}.

(** Python's [/] on floats: it raises on a zero divisor and only then. *)
Definition true_div (a b : float) : result float :=
  if b =? 0 then Raise ZeroDivisionError else Ok (a / b).

Definition step_for (ramp_rate : float) : float :=
  if ramp_rate <? 0.01 then 0.001
  else if ramp_rate <? 0.1 then 0.010
  else if ramp_rate <? 1.0 then 0.100
  else 1.0.

Definition RampRateVoltage (ch : channel) : result float :=
  true_div (step (voltage ch)) (inter_delay (voltage ch)).

Definition set_RampRateVoltage (val : float) (ch : channel)
  : result unit * channel :=
  let ramp_rate := val in
  let st := step_for ramp_rate in
  let ch1 := mk_channel (mk_parameter st (inter_delay (voltage ch))) (current ch) in
  match true_div (step (voltage ch1)) ramp_rate with
  | Ok d =>
      if d <? 0 then (Raise ValueError, ch1)
      else (Ok tt, mk_channel (mk_parameter st d) (current ch))
  | Raise e => (Raise e, ch1)
  end.

Definition RampRateCurrent (ch : channel) : result float :=
  true_div (step (current ch)) (inter_delay (current ch)).

Definition set_RampRateCurrent (val : float) (ch : channel)
  : result unit * channel :=
  let ramp_rate := val in
  let st := step_for ramp_rate in
  let ch1 := mk_channel (voltage ch) (mk_parameter st (inter_delay (current ch))) in
  match true_div (step (current ch1)) ramp_rate with
  | Ok d =>
      if d <? 0 then (Raise ValueError, ch1)
      else (Ok tt, mk_channel (voltage ch) (mk_parameter st d))
  | Raise e => (Raise e, ch1)
  end.

End B64.

(** ** A scripted instrument for concrete runs *)

Module Mock.

(** The instrument answers the five configuration queries with the given
    request, the [k]-th trace read with [trace k], everything else with an
    empty reply, and loses the connection at call number [fail_at]
    (counted from 0), if any. *)
Definition instrument (rq : request) (trace : nat -> list Q)
           (fail_at : option nat) : Visa.instrument :=
  fun h c =>
    if match fail_at with Some k => Nat.eqb (length h) k | None => false end
    then None
    else Some
      match c with
      | Ask SENS_FREQ_SPAN_q => Number (span rq)
      | Ask FREQ_STAR_q => Number (start_freq rq)
      | Ask FREQ_STOP_q => Number (stop_freq rq)
      | Ask AVER_TRAC1_STAT_q => Integer (int_of_bool (average_state rq))
      | Ask AVER_TRAC1_COUN_q => Integer (average_cnt rq)
      | Ask CLS_INIT_IMM_OPC_q => Integer 1
      | QueryAsciiValues TRACE_DATA_TRACE1_q =>
          Values (trace (length (filter is_trace_read h)))
      | _ => NoReply
      end.

(** A trace of [sample_count] copies of the sweep number. *)
Definition flat_trace (k : nat) : list Q :=
  repeat (inject_Z (Z.of_nat k)) sample_count.

(** 0 Hz to 1.2 GHz, averaging on with 10 counts. *)
Definition rq_wide : request := mk_request 1200000000 0 1200000000 true 10.

(** 1 GHz to 1 GHz + 1 Hz, averaging off. *)
Definition rq_narrow : request := mk_request 1 1000000000 1000000001 false 1.

(** -1 GHz to 1 GHz: a window no analyser can tune to. *)
Definition rq_negative : request :=
  mk_request 2000000000 (-1000000000) 1000000000 false 1.

(** The data of a run that returned. *)
Definition data_of (run : result ret_data * list io) : ret_data :=
  match fst run with
  | Ok data => data
  | Raise _ => mk_ret_data [] []
  end.

End Mock.

(** ** The DC switch box on its serial line *)

Module DCBox.
Import String.

(** What the methods of the two classes can raise. *)
Inductive exn : Type :=
| SerialException
| ValueError
| AssertionError
| AttributeError.

Inductive result (A : Type) : Type :=
| Return (a : A)
| Raise (e : exn).
Arguments Return {A} a.
Arguments Raise {A} e.

(** The three calls made on [self.ser]. *)
Inductive op : Type :=
| reset_input_buffer
| ser_write (data : list Byte.byte)
| ser_read (size : nat).

(** The serial port with the box behind it: from the calls made so far and
    the next call to the bytes that come back ([[]] for a call without
    result and for a read that times out), or [None] when pyserial
    raises. *)
Definition serial : Type := list op -> op -> option (list Byte.byte).

(** A method runs against the port and the calls made so far. *)
Definition S (A : Type) : Type := serial -> list op -> result A * list op.

Definition ret {A : Type} (a : A) : S A := fun _ h => (Return a, h).

Definition raise {A : Type} (e : exn) : S A := fun _ h => (Raise e, h).

Definition bind {A B : Type} (m : S A) (k : A -> S B) : S B :=
  fun dev h =>
    match m dev h with
    | (Return a, h') => k a dev h'
    | (Raise e, h') => (Raise e, h')
    end.

(** [try: m / except: pass], with [None] for the swallowed exception. *)
Definition try_pass {A : Type} (m : S A) : S (option A) :=
  fun dev h =>
    match m dev h with
    | (Return a, h') => (Return (Some a), h')
    | (Raise _, h') => (Return None, h')
    end.

Declare Scope box_scope.
Delimit Scope box_scope with box.
Notation "x <- m ;; k" := (bind m (fun x => k))
  (at level 100, m at next level, right associativity) : box_scope.
Notation "m ;;; k" := (bind m (fun _ => k))
  (at level 100, right associativity) : box_scope.
Local Open Scope box_scope.

Definition call (c : op) : S (list Byte.byte) :=
  fun dev h =>
    match dev h c with
    | Some r => (Return r, h ++ [c])
    | None => (Raise SerialException, h ++ [c])
    end.

(** [bytes(cmd)] of a list of integers: every one must be in
    [range(256)]. *)
Definition byte_of_int (x : Z) : option Byte.byte :=
  if (x <? 0)%Z then None else Byte.of_N (Z.to_N x).

Fixpoint bytes (cmd : list Z) : option (list Byte.byte) :=
  match cmd with
  | [] => Some []
  | x :: rest =>
      match byte_of_int x, bytes rest with
      | Some b, Some bs => Some (b :: bs)
      | _, _ => None
      end
  end.

Definition int_of_byte (b : Byte.byte) : Z := Z.of_N (Byte.to_N b).

(** [int.from_bytes(b, byteorder='big')]. *)
Definition int_from_bytes (b : list Byte.byte) : Z :=
  fold_left (fun acc x => (acc * 256 + int_of_byte x)%Z) b 0%Z.

(** [SW_DCsmuBox.write]. *)
Definition write (cmd : list Z) : S unit :=
  match bytes cmd with
  | None => raise ValueError
  | Some data => call (ser_write data) ;;; ret tt
  end.

(** [self.ser.read(size)] hands back at most [size] bytes. *)
Definition read (size : nat) : S (list Byte.byte) :=
  r <- call (ser_read size) ;; ret (firstn size r).

(** [SW_DCsmuBox.query]. *)
Definition query (cmd : list Z) : S (list Byte.byte) :=
  call reset_input_buffer ;;;
  write cmd ;;;
  ret_str <- read 1 ;;
  ret ret_str.

(** [self._lestates]. *)
Definition lestates : list string :=
  ["Psense"; "Pforce"; "Pground"; "Pbnc"; "Popen"]%string.

(** [list.index]: the first position of [x], if any. *)
Fixpoint index (x : string) (l : list string) : option nat :=
  match l with
  | [] => None
  | y :: rest =>
      if String.eqb y x then Some 0%nat else option_map Datatypes.S (index x rest)
  end.

(** [l[i]]: a negative index counts from the end; [None] stands for
    [IndexError]. *)
Definition getitem (l : list string) (i : Z) : option string :=
  let len := Z.of_nat (List.length l) in
  if (i <? 0)%Z then
    if (i + len <? 0)%Z then None else nth_error l (Z.to_nat (i + len))
  else nth_error l (Z.to_nat i).

(** The two [if]s inside the [try] of [get_state]: the state a reply stands
    for, when the reply is for this port and its state number is known.  An
    [IndexError] would be swallowed by the bare [except] like any other
    exception, and the loop would go on as after a failed test. *)
Definition accept (port cur_val : Z) : option string :=
  if (Z.land cur_val 31 =? port)%Z then
    let ret_state := Z.shiftr cur_val 5 in
    if (ret_state <? Z.of_nat (List.length lestates))%Z
    then getitem lestates ret_state
    else None
  else None.

(** The [while (tries > 0)] loop of [get_state]. *)
Fixpoint get_state_loop (tries : nat) (port : Z) : S string :=
  match tries with
  | O => raise AssertionError
  | Datatypes.S tries' =>
      r <- try_pass (query [Z.lor 224 port]) ;;
      match r with
      | Some reply =>
          match accept port (int_from_bytes reply) with
          | Some state => ret state
          | None => get_state_loop tries' port
          end
      | None => get_state_loop tries' port
      end
  end.

Definition get_state (port : Z) : S string := get_state_loop 100 port.

(** The [Position] property of a port: [str(self.state())], where reading
    the [state] parameter calls [get_state] and [str] of a name is the
    name. *)
Definition Position (port : Z) : S string := get_state port.

(** The [Position] setter. *)
Definition set_Position (port : Z) (pos : string) : S unit :=
  match index pos lestates with
  | None => raise ValueError
  | Some state_val =>
      let msg := Z.lor (Z.shiftl (Z.of_nat state_val) 5) port in
      write [msg]
  end.

(** [f"Port{x}"]. *)
Definition port_name (x : nat) : string :=
  "Port" ++ DecimalString.NilEmpty.string_of_uint (Nat.to_uint x).

(** The default [ports] argument of [SW_DCsmuBox.__init__]. *)
Definition default_ports : list string :=
  map port_name (seq 1 9) ++ map port_name (seq 13 4) ++ map port_name (seq 10 3).

(** [getattr(self, name)] on a box built with [ports]: the port object
    [enumerate] numbered with the position of [name].  The names of a box
    are distinct, qcodes refuses a second submodule of the same name. *)
Definition getattr (ports : list string) (name : string) : S Z :=
  match index name ports with
  | Some m => ret (Z.of_nat m)
  | None => raise AttributeError
  end.

(** The loop of [set_ports_to_default]. *)
Fixpoint set_ports (ports : list string) (default_pos : string)
         (numbers : list nat) : S unit :=
  match numbers with
  | [] => ret tt
  | i :: rest =>
      port_obj <- getattr ports (port_name i) ;;
      cur <- Position port_obj ;;
      (if negb (String.eqb cur default_pos)
       then set_Position port_obj default_pos
       else ret tt) ;;;
      set_ports ports default_pos rest
  end.

Definition set_ports_to_default (ports : list string) (default_pos : string)
  : S unit :=
  set_ports ports default_pos (seq 1 16).

(** *** Vocabulary for statements about the serial traffic *)

(** The byte [0xE0 | port] that asks for the state of a port. *)
Definition query_byte (port : Z) : option Byte.byte :=
  byte_of_int (Z.lor 224 port).

(** The byte [(state << 5) | port] that moves a port. *)
Definition position_byte (state : nat) (port : Z) : option Byte.byte :=
  byte_of_int (Z.lor (Z.shiftl (Z.of_nat state) 5) port).

Definition is_reset (c : op) : bool :=
  match c with
  | reset_input_buffer => true
  | _ => false
  end.

(** Is the call part of a query for [port]: a buffer reset, the query byte
    on its own, or a one byte read? *)
Definition is_query_call (port : Z) (c : op) : Prop :=
  match c with
  | reset_input_buffer => True
  | ser_write data => exists qb, query_byte port = Some qb /\ data = [qb]
  | ser_read size => size = 1%nat
  end.

(** The three calls of a query that went through. *)
Definition query_calls (qb : Byte.byte) : list op :=
  [reset_input_buffer; ser_write [qb]; ser_read 1].

(** A box all of whose sixteen ports sit in one state and which answers
    every query at once. *)
Definition rests_at (dev : serial) (state : nat) : Prop :=
  forall h port qb b,
    (0 <= port < 16)%Z ->
    query_byte port = Some qb ->
    position_byte state port = Some b ->
    dev h reset_input_buffer <> None /\
    dev h (ser_write [qb]) <> None /\
    dev (h ++ [ser_write [qb]]) (ser_read 1) = Some [b].

(** Is the call one [set_ports_to_default] may make when the default is
    state number [state]: a buffer reset, a one byte read, or the write of
    the query byte or of the position byte of one of the sixteen ports? *)
Definition is_default_call (state : nat) (c : op) : Prop :=
  match c with
  | reset_input_buffer => True
  | ser_read size => size = 1%nat
  | ser_write data =>
      exists port b,
        (0 <= port < 16)%Z /\ data = [b] /\
        (query_byte port = Some b \/ position_byte state port = Some b)
  end.

(** Is the call the write of a single byte below [0xA0], that is, of a
    byte that moves a port? *)
Definition is_position_write (c : op) : bool :=
  match c with
  | ser_write [b] => (int_of_byte b <? 160)%Z
  | _ => false
  end.

(** A box that answers every read with the same bytes. *)
Definition stuck_box (answer : list Byte.byte) : serial :=
  fun _ c =>
    match c with
    | ser_read _ => Some answer
    | _ => Some []
    end.

(** The bytes of the last write among the calls made. *)
Definition last_write (h : list op) : option (list Byte.byte) :=
  fold_left (fun acc c =>
               match c with
               | ser_write data => Some data
               | _ => acc
               end) h None.

(** A box whose ports all sit in state number [state], whatever it is
    sent: it answers the read after a query with the position byte of the
    port asked for. *)
Definition resting_box (state : nat) : serial :=
  fun h c =>
    match c with
    | ser_read _ =>
        match last_write h with
        | Some [qb] =>
            match position_byte state (Z.land (int_of_byte qb) 31) with
            | Some b => Some [b]
            | None => Some []
            end
        | _ => Some []
        end
    | _ => Some []
    end.

End DCBox.

(** * Properties *)

(** ** Arithmetic of the segmentation *)

Section Segmentation.

Lemma ceil_lower (x : Q) : inject_Z (Np.ceil x) - 1 < x.
Proof.
  pose proof (Qceiling_lt x) as H.
  unfold Z.sub in H. rewrite inject_Z_plus, inject_Z_opp in H.
  exact H.
Qed.

Lemma div_mul_span (x : Q) : x / max_segment_span * max_segment_span == x.
Proof. field. discriminate. Qed.

Lemma seg_index_inside (sp : Q) (i : nat) :
  (Z.of_nat i < num_segments sp)%Z ->
  inject_Z (Z.of_nat i) * max_segment_span < sp.
Proof.
  intros Hi. unfold num_segments in Hi.
  pose proof (ceil_lower (sp / max_segment_span)) as Hl.
  assert (Hq : inject_Z (Z.of_nat i) <= inject_Z (Np.ceil (sp / max_segment_span)) - 1).
  { change 1 with (inject_Z 1).
    unfold Qminus. rewrite <- inject_Z_opp, <- inject_Z_plus. rewrite <- Zle_Qle. lia. }
  assert (Hlt : inject_Z (Z.of_nat i) < sp / max_segment_span).
  { eapply Qle_lt_trans; eassumption. }
  rewrite <- (div_mul_span sp).
  apply Qmult_lt_compat_r; [reflexivity | exact Hlt].
Qed.

Lemma span_within_segments (sp : Q) :
  sp <= inject_Z (num_segments sp) * max_segment_span.
Proof.
  rewrite <- (div_mul_span sp) at 1.
  apply Qmult_le_compat_r; [apply Qle_ceiling | discriminate].
Qed.

Lemma num_segments_pos (sp : Q) : 0 < sp -> (0 < num_segments sp)%Z.
Proof.
  intros Hsp. pose proof (span_within_segments sp) as Hup.
  destruct (Z_lt_le_dec 0 (num_segments sp)) as [Hlt | Hle]; [exact Hlt | exfalso].
  rewrite Zle_Qle in Hle. unfold max_segment_span in Hup.
  change (inject_Z 0) with 0 in Hle. lra.
Qed.

Lemma num_segments_nonpos (sp : Q) : sp <= 0 -> (num_segments sp <= 0)%Z.
Proof.
  intros Hsp. pose proof (seg_index_inside sp 0) as Hin.
  destruct (Z_lt_le_dec 0 (num_segments sp)) as [Hlt | Hle]; [exfalso | exact Hle].
  specialize (Hin Hlt). change (inject_Z (Z.of_nat 0)) with 0 in Hin.
  unfold max_segment_span in Hin. lra.
Qed.

Lemma num_segments_single (sp : Q) :
  0 < sp -> sp <= max_segment_span -> num_segments sp = 1%Z.
Proof.
  intros Hpos Hle. pose proof (num_segments_pos sp Hpos) as Hlo.
  destruct (Z_lt_le_dec 1 (num_segments sp)) as [Hlt | Hhi]; [exfalso | lia].
  pose proof (seg_index_inside sp 1 Hlt) as Hin.
  change (inject_Z (Z.of_nat 1)) with 1 in Hin.
  unfold max_segment_span in *. lra.
Qed.

End Segmentation.

(** The instrument keeps [span = stop - start]; the facts below are about
    requests read from such an instrument, with a non-empty window. *)
Section Coherent.
Variables sp st en : Q.
Hypothesis Hspan : sp == en - st.
Hypothesis Horder : st < en.

Lemma span_pos : 0 < sp.
Proof. lra. Qed.

Lemma seg_start_0 : seg_start st 0 == st.
Proof. unfold seg_start. simpl. ring. Qed.

Lemma seg_start_succ (i : nat) :
  seg_start st (S i) == seg_start st i + max_segment_span.
Proof.
  unfold seg_start. rewrite Nat2Z.inj_succ. unfold Z.succ.
  rewrite inject_Z_plus. change (inject_Z 1) with 1. ring.
Qed.

Lemma seg_start_lt_stop (i : nat) :
  (Z.of_nat i < num_segments sp)%Z -> seg_start st i < en.
Proof.
  intros Hi. apply seg_index_inside in Hi. unfold seg_start. lra.
Qed.

Lemma seg_start_le_seg_stop (i : nat) :
  (Z.of_nat i < num_segments sp)%Z -> seg_start st i <= seg_stop st en i.
Proof.
  intros Hi. apply seg_start_lt_stop in Hi. unfold seg_stop, Np.min.
  destruct (Q.min_spec (seg_start st i + max_segment_span) en) as [[_ E] | [_ E]];
    rewrite E; unfold max_segment_span; lra.
Qed.

Lemma seg_stop_inner (i : nat) :
  (Z.of_nat (S i) < num_segments sp)%Z ->
  seg_stop st en i == seg_start st (S i).
Proof.
  intros Hi. apply seg_start_lt_stop in Hi. rewrite seg_start_succ in *.
  unfold seg_stop, Np.min.
  destruct (Q.min_spec (seg_start st i + max_segment_span) en) as [[_ E] | [Hle E]];
    rewrite E; lra.
Qed.

Lemma seg_stop_last (i : nat) :
  (Z.of_nat (S i) = num_segments sp)%Z -> seg_stop st en i == en.
Proof.
  intros Hi. pose proof (span_within_segments sp) as Hup. rewrite <- Hi in Hup.
  assert (Hge : en <= seg_start st i + max_segment_span).
  { rewrite <- seg_start_succ. unfold seg_start. lra. }
  unfold seg_stop, Np.min.
  destruct (Q.min_spec (seg_start st i + max_segment_span) en) as [[Hlt E] | [_ E]];
    rewrite E; lra.
Qed.
End Coherent.

Lemma seg_width_le (st en : Q) (i : nat) :
  seg_stop st en i - seg_start st i <= max_segment_span.
Proof.
  unfold seg_stop, Np.min.
  destruct (Q.min_spec (seg_start st i + max_segment_span) en) as [[_ E] | [Hle E]];
    rewrite E; lra.
Qed.

(** ** Lists of equally long blocks *)

Section Blocks.
Context {A : Type}.

Lemma length_concat_blocks (m : nat) (ls : list (list A)) :
  Forall (fun l => length l = m) ls ->
  length (concat ls) = (length ls * m)%nat.
Proof.
  induction 1 as [| l ls Hl _ IH]; simpl; [reflexivity |].
  rewrite length_app, IH, Hl. reflexivity.
Qed.

Lemma nth_error_concat_blocks (m : nat) (ls : list (list A)) (i k : nat) :
  Forall (fun l => length l = m) ls ->
  (k < m)%nat ->
  nth_error (concat ls) (i * m + k) = nth_error (nth i ls []) k.
Proof.
  intros Hall Hk. revert i.
  induction Hall as [| l ls Hl _ IH]; intros i; simpl.
  - destruct (i * m + k)%nat; destruct i; destruct k; reflexivity.
  - destruct i as [| i]; simpl.
    + apply nth_error_app1. lia.
    + rewrite nth_error_app2 by lia.
      replace (m + i * m + k - length l)%nat with (i * m + k)%nat by lia.
      apply IH.
Qed.
End Blocks.

(** ** [np.linspace] *)

Lemma linspace_length (a b : Q) (num : nat) : length (Np.linspace a b num) = num.
Proof. unfold Np.linspace. rewrite length_map, length_seq. reflexivity. Qed.

Lemma linspace_nth_error (a b : Q) (num k : nat) :
  (k < num)%nat ->
  nth_error (Np.linspace a b num) k = Some (Np.linspace_at a b num k).
Proof.
  intros Hk. unfold Np.linspace.
  rewrite nth_error_map, nth_error_seq.
  apply Nat.ltb_lt in Hk. rewrite Hk. reflexivity.
Qed.

(** Every sample, the overwritten last one included, lies on the line
    through the two end points. *)
Lemma linspace_at_line (a b : Q) (num k : nat) :
  (1 < num)%nat -> (k < num)%nat ->
  Np.linspace_at a b num k ==
  a + inject_Z (Z.of_nat k) * ((b - a) / inject_Z (Z.of_nat (num - 1))).
Proof.
  intros Hnum Hk. unfold Np.linspace_at, Np.linspace_step.
  apply Nat.ltb_lt in Hnum. rewrite Hnum. simpl andb.
  destruct (Nat.eqb_spec k (num - 1)) as [-> | _]; [| ring].
  field. apply Nat.ltb_lt in Hnum.
  intros H0. change 0 with (inject_Z 0) in H0.
  apply (proj1 (inject_Z_injective _ _)) in H0. lia.
Qed.

Lemma linspace_at_first (a b : Q) : Np.linspace_at a b sample_count 0 == a.
Proof. unfold Np.linspace_at. simpl. ring. Qed.

Lemma linspace_at_last (a b : Q) :
  Np.linspace_at a b sample_count (sample_count - 1) = b.
Proof. reflexivity. Qed.

Lemma linspace_at_mono (a b : Q) (num k k' : nat) :
  (1 < num)%nat -> a <= b -> (k <= k')%nat -> (k' < num)%nat ->
  Np.linspace_at a b num k <= Np.linspace_at a b num k'.
Proof.
  intros Hnum Hab Hkk Hk'.
  rewrite !linspace_at_line by lia.
  assert (Hstep : 0 <= (b - a) / inject_Z (Z.of_nat (num - 1))).
  { apply Qle_shift_div_l.
    - change 0 with (inject_Z 0). rewrite <- Zlt_Qlt. lia.
    - lra. }
  assert (Hq : inject_Z (Z.of_nat k) <= inject_Z (Z.of_nat k')).
  { rewrite <- Zle_Qle. lia. }
  set (s := (b - a) / inject_Z (Z.of_nat (num - 1))) in *.
  apply Qplus_le_r. apply Qmult_le_compat_r; assumption.
Qed.


Lemma linspace_cons (a b : Q) (m : nat) :
  Np.linspace a b (S m) =
  Np.linspace_at a b (S m) 0 :: map (Np.linspace_at a b (S m)) (seq 1 m).
Proof. reflexivity. Qed.

Lemma linspace_last (a b : Q) (m : nat) :
  last (Np.linspace a b (S m)) 0 = Np.linspace_at a b (S m) m.
Proof.
  unfold Np.linspace. rewrite seq_S, map_app. simpl. apply last_last.
Qed.

(** ** Non-decreasing sample lists *)

Lemma nondecreasing_app (l1 l2 : list Q) :
  nondecreasing l1 -> nondecreasing l2 ->
  (l1 <> [] -> l2 <> [] -> last l1 0 <= hd 0 l2) ->
  nondecreasing (l1 ++ l2).
Proof.
  induction l1 as [| x tl IH]; intros H1 H2 Hb; [exact H2 |].
  destruct tl as [| y tl'].
  - destruct l2 as [| z l2']; [exact I |].
    split; [apply Hb; discriminate | exact H2].
  - destruct H1 as [Hxy Htl]. split; [exact Hxy |].
    apply IH; [exact Htl | exact H2 |].
    intros _ Hne. apply Hb; [discriminate | exact Hne].
Qed.

Lemma nondecreasing_map_seq (f : nat -> Q) (s len : nat) :
  (forall k, (s <= k)%nat -> (S k < s + len)%nat -> f k <= f (S k)) ->
  nondecreasing (map f (seq s len)).
Proof.
  revert s. induction len as [| len IH]; intros s Hf; [exact I |].
  destruct len as [| len']; [exact I |].
  split.
  - apply Hf; lia.
  - apply IH. intros k Hk1 Hk2. apply Hf; lia.
Qed.

(** The chain form implies the pairwise form. *)
Lemma nondecreasing_nth (l : list Q) :
  nondecreasing l ->
  forall i j, (i <= j)%nat -> (j < length l)%nat -> nth i l 0 <= nth j l 0.
Proof.
  induction l as [| x tl IH]; intros Hl i j Hij Hj; [simpl in Hj; lia |].
  assert (Htl : nondecreasing tl).
  { destruct tl; [exact I | apply Hl]. }
  assert (Hhd : forall k, (k < length tl)%nat -> x <= nth k tl 0).
  { intros k Hk. destruct tl as [| y tl']; [simpl in Hk; lia |].
    apply Qle_trans with y; [apply Hl |].
    apply (IH Htl 0%nat k); [lia | exact Hk]. }
  destruct i as [| i], j as [| j]; simpl in *.
  - apply Qle_refl.
  - apply Hhd. lia.
  - lia.
  - apply IH; [exact Htl | lia | lia].
Qed.

Lemma linspace_nondecreasing (a b : Q) (num : nat) :
  a <= b -> nondecreasing (Np.linspace a b num).
Proof.
  intros Hab. unfold Np.linspace. apply nondecreasing_map_seq.
  intros k _ Hk. apply linspace_at_mono; [lia | exact Hab | lia | lia].
Qed.

(** ** The stitched frequency axis *)

Lemma segment_freqs_length (st en : Q) (seg : nat) :
  length (segment_freqs st en seg) = sample_count.
Proof. apply linspace_length. Qed.

Lemma freqs_per_segment_blocks (sp st en : Q) :
  Forall (fun l => length l = sample_count) (freqs_per_segment sp st en).
Proof.
  unfold freqs_per_segment. apply Forall_map, Forall_forall.
  intros seg _. apply segment_freqs_length.
Qed.

Lemma freqs_per_segment_length (sp st en : Q) :
  length (freqs_per_segment sp st en) = Z.to_nat (num_segments sp).
Proof. unfold freqs_per_segment, range. rewrite length_map, length_seq. reflexivity. Qed.

Lemma axis_length (sp st en : Q) :
  length (Np.concatenate (freqs_per_segment sp st en)) =
  (Z.to_nat (num_segments sp) * sample_count)%nat.
Proof.
  unfold Np.concatenate.
  rewrite (length_concat_blocks sample_count) by apply freqs_per_segment_blocks.
  rewrite freqs_per_segment_length. reflexivity.
Qed.

(** Sample [k] of segment [i] sits at position [i * 461 + k] of the axis. *)
Lemma axis_sample (sp st en : Q) (i k : nat) :
  (i < Z.to_nat (num_segments sp))%nat -> (k < sample_count)%nat ->
  nth_error (Np.concatenate (freqs_per_segment sp st en)) (i * sample_count + k) =
  Some (Np.linspace_at (seg_start st i) (seg_stop st en i) sample_count k).
Proof.
  intros Hi Hk. unfold Np.concatenate.
  rewrite (nth_error_concat_blocks sample_count) by
    (apply freqs_per_segment_blocks || exact Hk).
  unfold freqs_per_segment, range.
  rewrite (nth_indep _ [] (segment_freqs st en 0)) by
    (rewrite length_map, length_seq; exact Hi).
  rewrite map_nth, seq_nth by exact Hi.
  apply linspace_nth_error. exact Hk.
Qed.

Lemma linspace_at_Qeq (a a' b b' : Q) (num k : nat) :
  a == a' -> b == b' ->
  Np.linspace_at a b num k == Np.linspace_at a' b' num k.
Proof.
  intros Ha Hb. unfold Np.linspace_at, Np.linspace_step.
  destruct (Nat.ltb 1 num && Nat.eqb k (num - 1))%bool; [exact Hb |].
  rewrite Ha, Hb. reflexivity.
Qed.

Lemma linspace_Qeq (a a' b b' : Q) (num : nat) :
  a == a' -> b == b' -> Np.linspace a b num =q= Np.linspace a' b' num.
Proof.
  intros Ha Hb. unfold Qlist_eq, Np.linspace.
  induction (seq 0 num) as [| k l IH]; simpl; constructor.
  - apply linspace_at_Qeq; assumption.
  - exact IH.
Qed.

Section CoherentAxis.
Variables sp st en : Q.
Hypothesis Hspan : sp == en - st.
Hypothesis Horder : st < en.

Lemma axis_chunk_nondecreasing (s len : nat) :
  (Z.of_nat (s + len) <= num_segments sp)%Z ->
  nondecreasing (concat (map (segment_freqs st en) (seq s len))).
Proof.
  revert s. induction len as [| len IH]; intros s Hs; [exact I |].
  cbn [seq map concat]. apply nondecreasing_app.
  - apply linspace_nondecreasing.
    apply (seg_start_le_seg_stop sp st en Hspan). lia.
  - apply IH. lia.
  - intros _ Hne. unfold segment_freqs at 1.
    change sample_count with (S 460). rewrite linspace_last.
    change (Np.linspace_at (seg_start st s) (seg_stop st en s) 461 460)
      with (seg_stop st en s).
    destruct len as [| len']; [exfalso; apply Hne; reflexivity |].
    cbn [seq map concat]. unfold segment_freqs at 1.
    change sample_count with (S 460). rewrite linspace_cons. cbn [hd app].
    rewrite (linspace_at_first (seg_start st (S s)) (seg_stop st en (S s))).
    rewrite (seg_stop_inner sp st en Hspan) by lia.
    apply Qle_refl.
Qed.

Lemma axis_nondecreasing :
  nondecreasing (Np.concatenate (freqs_per_segment sp st en)).
Proof.
  unfold Np.concatenate, freqs_per_segment, range.
  apply axis_chunk_nondecreasing.
  pose proof (num_segments_pos sp (span_pos sp st en Hspan Horder)). lia.
Qed.

(** The last sample of segment [i] and the first sample of segment [i + 1]
    are the same frequency. *)
Lemma axis_boundary (i : nat) :
  (S i < Z.to_nat (num_segments sp))%nat ->
  nth (i * sample_count + (sample_count - 1))
      (Np.concatenate (freqs_per_segment sp st en)) 0 ==
  nth (S i * sample_count)
      (Np.concatenate (freqs_per_segment sp st en)) 0.
Proof.
  intros Hi.
  rewrite (nth_error_nth _ _ 0
             (axis_sample sp st en i (sample_count - 1) ltac:(lia) ltac:(unfold sample_count; lia))).
  replace (S i * sample_count)%nat with (S i * sample_count + 0)%nat by lia.
  rewrite (nth_error_nth _ _ 0
             (axis_sample sp st en (S i) 0 Hi ltac:(unfold sample_count; lia))).
  rewrite linspace_at_first.
  change (Np.linspace_at (seg_start st i) (seg_stop st en i) sample_count
            (sample_count - 1)) with (seg_stop st en i).
  apply (seg_stop_inner sp st en Hspan). lia.
Qed.

(** A span of at most [5e8] gives the plain 461-point axis of the window. *)
Lemma axis_single :
  sp <= max_segment_span ->
  Np.concatenate (freqs_per_segment sp st en) =q= Np.linspace st en sample_count.
Proof.
  intros Hle.
  pose proof (num_segments_single sp (span_pos sp st en Hspan Horder) Hle) as Hn.
  unfold Np.concatenate, freqs_per_segment, range. rewrite Hn.
  change (Z.to_nat 1) with 1%nat. cbn [seq map concat]. rewrite app_nil_r.
  apply linspace_Qeq.
  - apply seg_start_0.
  - apply (seg_stop_last sp st en Hspan). rewrite Hn. reflexivity.
Qed.

Lemma seg_start_lt_seg_stop (i : nat) :
  (Z.of_nat i < num_segments sp)%Z -> seg_start st i < seg_stop st en i.
Proof.
  intros Hi. apply (seg_start_lt_stop sp st en Hspan) in Hi.
  unfold seg_stop, Np.min.
  destruct (Q.min_spec (seg_start st i + max_segment_span) en) as [[_ E] | [_ E]];
    rewrite E; unfold max_segment_span; lra.
Qed.

(** Windows that are chained end to start leave no frequency out. *)
Lemma segments_cover_upto (m : nat) :
  (Z.of_nat m < num_segments sp)%Z ->
  forall f, st <= f <= seg_stop st en m ->
  exists i, (i <= m)%nat /\ seg_start st i <= f <= seg_stop st en i.
Proof.
  induction m as [| m IH]; intros Hm f [Hlo Hhi].
  - exists 0%nat. split; [lia |]. rewrite seg_start_0. split; assumption.
  - destruct (Qlt_le_dec (seg_stop st en m) f) as [Hgt | Hle].
    + exists (S m). split; [lia |].
      rewrite <- (seg_stop_inner sp st en Hspan m Hm). split; [lra | exact Hhi].
    + destruct (IH ltac:(lia) f (conj Hlo Hle)) as (i & Hi & Hin).
      exists i. split; [lia | exact Hin].
Qed.

Lemma segments_cover (f : Q) :
  st <= f <= en ->
  exists i, (i < Z.to_nat (num_segments sp))%nat /\
            seg_start st i <= f <= seg_stop st en i.
Proof.
  intros [Hlo Hhi].
  pose proof (num_segments_pos sp (span_pos sp st en Hspan Horder)) as Hn.
  destruct (segments_cover_upto (Z.to_nat (num_segments sp) - 1) ltac:(lia) f)
    as (i & Hi & Hin).
  - split; [exact Hlo |].
    rewrite (seg_stop_last sp st en Hspan) by lia. exact Hhi.
  - exists i. split; [lia | exact Hin].
Qed.

End CoherentAxis.

(** ** Running the driver against an instrument *)

Lemma run_bind_write {A : Type} (c : scpi) (k : M A) (I : instrument) (h : list io) :
  (write c ;;; k) I h =
  match I h (Write c) with
  | Some _ => k I (h ++ [Write c])
  | None => (Raise VisaIOError, h ++ [Write c])
  end.
Proof. unfold write, bind, transact, ret. destruct (I h (Write c)); reflexivity. Qed.

Lemma run_bind_ask {A : Type} (c : scpi) (k : reply -> M A) (I : instrument)
      (h : list io) :
  (r <- ask c ;; k r) I h =
  match I h (Ask c) with
  | Some r => k r I (h ++ [Ask c])
  | None => (Raise VisaIOError, h ++ [Ask c])
  end.
Proof. unfold ask, bind, transact. destruct (I h (Ask c)); reflexivity. Qed.

Lemma run_bind_query {A : Type} (c : scpi) (k : list Q -> M A) (I : instrument)
      (h : list io) :
  (l <- query_ascii_values c ;; k l) I h =
  match I h (QueryAsciiValues c) with
  | Some (Values l) => k l I (h ++ [QueryAsciiValues c])
  | Some _ => (Raise ValueError, h ++ [QueryAsciiValues c])
  | None => (Raise VisaIOError, h ++ [QueryAsciiValues c])
  end.
Proof.
  unfold query_ascii_values, bind, transact, ret, raise.
  destruct (I h (QueryAsciiValues c)) as [[] |]; reflexivity.
Qed.

(** Case split on the instrument's answer to the call the run is about to
    make. *)
Ltac answer :=
  match goal with
  | |- context [match ?I ?h ?c with Some _ => _ | None => _ end] =>
      destruct (I h c) as [? |]
  end.

(** The run raised at call [n] of the script. *)
Ltac fails_at n :=
  right; eexists; exists n; split; [lia |];
  rewrite <- ?app_assoc; reflexivity.

(** One segment either runs its eight calls to the end and appends the
    trace it read, or raises at one of them. *)
Lemma acquire_segment_run (rq : request) (seg : nat) (acc : list Q)
      (I : instrument) (h : list io) :
  (exists l,
      I (h ++ segment_setup rq seg) (QueryAsciiValues TRACE_DATA_TRACE1_q)
      = Some (Values l) /\
      acquire_segment rq seg acc I h
      = (Ok (acc ++ l), h ++ segment_commands rq seg)) \/
  (exists e k,
      (0 < k <= 8)%nat /\
      acquire_segment rq seg acc I h
      = (Raise e, h ++ firstn k (segment_commands rq seg))).
Proof.
  unfold acquire_segment, segment_setup, segment_commands.
  cbn [removelast firstn].
  rewrite run_bind_write. answer; [| fails_at 1%nat].
  rewrite run_bind_write. answer; [| fails_at 2%nat].
  rewrite run_bind_write. answer; [| fails_at 3%nat].
  rewrite run_bind_ask. answer; [| fails_at 4%nat].
  rewrite run_bind_write. answer; [| fails_at 5%nat].
  rewrite run_bind_write. answer; [| fails_at 6%nat].
  rewrite run_bind_write. answer; [| fails_at 7%nat].
  rewrite run_bind_query.
  rewrite <- !app_assoc. cbn [app].
  destruct (I _ (QueryAsciiValues TRACE_DATA_TRACE1_q)) as [[| | | l] |];
    try fails_at 8%nat.
  left. exists l. split; reflexivity.
Qed.

Lemma segment_commands_length (rq : request) (seg : nat) :
  length (segment_commands rq seg) = 8%nat.
Proof. reflexivity. Qed.

(** The loop either completes every segment, the data being the traces the
    instrument returned in order, or stops inside the script at the call
    that raised. *)
Lemma acquire_segments_run (rq : request) (segs : list nat) :
  forall (acc : list Q) (I : instrument) (h : list io),
  (exists traces,
      length traces = length segs /\
      (forall i, (i < length segs)%nat ->
         I (h ++ flat_map (segment_commands rq) (firstn i segs)
              ++ segment_setup rq (nth i segs 0%nat))
           (QueryAsciiValues TRACE_DATA_TRACE1_q)
         = Some (Values (nth i traces []))) /\
      acquire_segments rq segs acc I h
      = (Ok (acc ++ concat traces), h ++ flat_map (segment_commands rq) segs)) \/
  (exists e k,
      (0 < k <= length (flat_map (segment_commands rq) segs))%nat /\
      acquire_segments rq segs acc I h
      = (Raise e, h ++ firstn k (flat_map (segment_commands rq) segs))).
Proof.
  induction segs as [| seg rest IH]; intros acc I h.
  - left. exists []. split; [reflexivity |]. split.
    + intros i Hi. simpl in Hi. lia.
    + simpl. unfold ret. rewrite !app_nil_r. reflexivity.
  - cbn [acquire_segments flat_map]. unfold bind.
    destruct (acquire_segment_run rq seg acc I h)
      as [(l & Hread & Hrun) | (e & k & Hk & Hrun)]; rewrite Hrun.
    + destruct (IH (acc ++ l) I (h ++ segment_commands rq seg))
        as [(traces & Hlen & Hreads & Hrest) | (e & k & Hk & Hrest)];
        rewrite Hrest.
      * left. exists (l :: traces). split; [simpl; lia |]. split.
        -- intros [| i] Hi.
           ++ simpl firstn. cbn [flat_map app nth]. exact Hread.
           ++ cbn [firstn flat_map nth length] in *.
              rewrite <- (Hreads i) by lia.
              rewrite <- !app_assoc. reflexivity.
        -- cbn [concat]. rewrite <- !app_assoc. reflexivity.
      * right. exists e, (8 + k)%nat. split.
        -- rewrite length_app, segment_commands_length. lia.
        -- rewrite <- (segment_commands_length rq seg) at 1.
           rewrite firstn_app_2, <- app_assoc. reflexivity.
    + right. exists e, k. split.
      * rewrite length_app, segment_commands_length. lia.
      * rewrite firstn_app, segment_commands_length.
        replace (k - 8)%nat with 0%nat by lia.
        rewrite firstn_O, app_nil_r. reflexivity.
Qed.

Lemma run_bind {A B : Type} (m : M A) (k : A -> M B) (I : instrument)
      (h : list io) :
  (x <- m ;; k x) I h =
  match m I h with
  | (Ok a, h') => k a I h'
  | (Raise e, h') => (Raise e, h')
  end.
Proof. reflexivity. Qed.

Lemma run_ret {A : Type} (a : A) (I : instrument) (h : list io) :
  ret a I h = (Ok a, h).
Proof. reflexivity. Qed.

(** A parameter read is one [ask] whose reply is parsed; it returns or
    raises after exactly that one call. *)
Lemma ask_parse_run {A : Type} (c : scpi) (p : reply -> M A)
      (I : instrument) (h : list io) :
  (forall r, (exists a, p r = ret a) \/ (exists e, p r = raise e)) ->
  (exists a, (r <- ask c ;; p r) I h = (Ok a, h ++ [Ask c])) \/
  (exists e, (r <- ask c ;; p r) I h = (Raise e, h ++ [Ask c])).
Proof.
  intros Hp. rewrite run_bind_ask.
  destruct (I h (Ask c)) as [r |]; [| right; eexists; reflexivity].
  destruct (Hp r) as [[a ->] | [e ->]]; [left | right]; eexists; reflexivity.
Qed.

Lemma parse_float_cases (r : reply) :
  (exists a, parse_float r = ret a) \/ (exists e, parse_float r = raise e).
Proof. destruct r; simpl; eauto. Qed.

Lemma parse_int_cases (r : reply) :
  (exists a, parse_int r = ret a) \/ (exists e, parse_int r = raise e).
Proof. destruct r; simpl; eauto. Qed.

Lemma parse_bool_cases (r : reply) :
  (exists a, parse_bool r = ret a) \/ (exists e, parse_bool r = raise e).
Proof. destruct r as [| [| [| |] |] | |]; simpl; eauto. Qed.

(** Reading the request takes the five queries in order, or raises at one
    of them. *)
Lemma read_request_run (I : instrument) (h : list io) :
  (exists rq, read_request I h = (Ok rq, h ++ request_queries)) \/
  (exists e k,
      (0 < k <= 5)%nat /\
      read_request I h = (Raise e, h ++ firstn k request_queries)).
Proof.
  unfold read_request, request_queries.
  unfold sense_frequency_span, sense_frequency_start, sense_frequency_stop,
    AveragesEnable, AveragesNum, average_enable, average_count.
  rewrite run_bind.
  destruct (ask_parse_run SENS_FREQ_SPAN_q parse_float I h parse_float_cases)
    as [[sp ->] | [e ->]]; [| fails_at 1%nat].
  cbv beta iota.
  rewrite run_bind.
  destruct (ask_parse_run FREQ_STAR_q parse_float I (h ++ [Ask SENS_FREQ_SPAN_q])
              parse_float_cases)
    as [[st ->] | [e ->]]; [| fails_at 2%nat].
  cbv beta iota.
  rewrite run_bind.
  destruct (ask_parse_run FREQ_STOP_q parse_float I
              ((h ++ [Ask SENS_FREQ_SPAN_q]) ++ [Ask FREQ_STAR_q])
              parse_float_cases)
    as [[en ->] | [e ->]]; [| fails_at 3%nat].
  cbv beta iota.
  rewrite run_bind.
  destruct (ask_parse_run AVER_TRAC1_STAT_q parse_bool I
              (((h ++ [Ask SENS_FREQ_SPAN_q]) ++ [Ask FREQ_STAR_q])
                 ++ [Ask FREQ_STOP_q])
              parse_bool_cases)
    as [[a_state ->] | [e ->]]; [| fails_at 4%nat].
  cbv beta iota.
  rewrite run_bind.
  destruct (ask_parse_run AVER_TRAC1_COUN_q parse_int I
              ((((h ++ [Ask SENS_FREQ_SPAN_q]) ++ [Ask FREQ_STAR_q])
                  ++ [Ask FREQ_STOP_q]) ++ [Ask AVER_TRAC1_STAT_q])
              parse_int_cases)
    as [[a_count ->] | [e ->]]; [| fails_at 5%nat].
  cbv beta iota.
  left. eexists. unfold ret. rewrite <- !app_assoc. reflexivity.
Qed.

Lemma read_request_log (I : instrument) (h h1 : list io) (rq : request) :
  read_request I h = (Ok rq, h1) -> h1 = h ++ request_queries.
Proof.
  intros Hrun.
  destruct (read_request_run I h) as [(rq' & H') | (e & k & _ & H')];
    rewrite H' in Hrun; congruence.
Qed.

Lemma firstn_seq_prefix (i s n : nat) :
  (i <= n)%nat -> firstn i (seq s n) = seq s i.
Proof.
  revert s n. induction i as [| i IH]; intros s n Hi; [reflexivity |].
  destruct n as [| n]; [lia |]. simpl. f_equal. apply IH. lia.
Qed.

Lemma wfm_x_length (rq : request) :
  length (wfm_x_of rq) =
  (Z.to_nat (num_segments (span rq)) * sample_count)%nat.
Proof. apply axis_length. Qed.

Lemma concatenate_freqs_run (rq : request) :
  (0 < num_segments (span rq))%Z ->
  concatenate_freqs
    (freqs_per_segment (span rq) (start_freq rq) (stop_freq rq))
  = ret (wfm_x_of rq).
Proof.
  intros Hn. unfold wfm_x_of.
  pose proof (freqs_per_segment_length (span rq) (start_freq rq) (stop_freq rq))
    as Hlen.
  destruct (freqs_per_segment _ _ _); [simpl in Hlen; lia | reflexivity].
Qed.

Lemma concatenate_freqs_empty (rq : request) :
  (num_segments (span rq) <= 0)%Z ->
  concatenate_freqs
    (freqs_per_segment (span rq) (start_freq rq) (stop_freq rq))
  = raise ValueError.
Proof.
  intros Hn. unfold freqs_per_segment, range.
  replace (Z.to_nat (num_segments (span rq))) with 0%nat by lia.
  reflexivity.
Qed.

(** After the request: no call at all when there is no segment; otherwise
    the whole script and the stitched result, or a prefix of the script
    ending at the call that raised. *)
Lemma stitch_run (rq : request) (proc : option (ret_data -> ret_data))
      (I : instrument) (h : list io) :
  ((num_segments (span rq) <= 0)%Z /\
   stitch rq proc I h = (Raise ValueError, h)) \/
  ((0 < num_segments (span rq))%Z /\
   exists traces,
     length traces = Z.to_nat (num_segments (span rq)) /\
     (forall i, (i < Z.to_nat (num_segments (span rq)))%nat ->
        I (h ++ flat_map (segment_commands rq) (seq 0 i) ++ segment_setup rq i)
          (QueryAsciiValues TRACE_DATA_TRACE1_q)
        = Some (Values (nth i traces []))) /\
     stitch rq proc I h
     = (Ok (processed proc (mk_ret_data (concat traces) (wfm_x_of rq))),
        h ++ acquisition_script rq)) \/
  ((0 < num_segments (span rq))%Z /\
   exists e k,
     (0 < k <= length (acquisition_script rq))%nat /\
     stitch rq proc I h = (Raise e, h ++ firstn k (acquisition_script rq))).
Proof.
  destruct (Z_lt_le_dec 0 (num_segments (span rq))) as [Hn | Hn].
  2: { left. split; [exact Hn |]. unfold stitch.
       rewrite run_bind, (concatenate_freqs_empty rq Hn). reflexivity. }
  right. unfold stitch, acquisition_script.
  rewrite run_bind, (concatenate_freqs_run rq Hn), run_ret.
  cbv beta iota. rewrite run_bind.
  set (cmds := flat_map (segment_commands rq) (range (num_segments (span rq)))).
  destruct (acquire_segments_run rq (range (num_segments (span rq))) [] I h)
    as [(traces & Hlen & Hreads & Hrun) | (e & k & Hk & Hrun)];
    fold cmds in Hrun; rewrite Hrun; cbv beta iota.
  2: { right. split; [exact Hn |]. exists e, k. fold cmds in Hk. split.
       - rewrite length_app. lia.
       - rewrite firstn_app. replace (k - length cmds)%nat with 0%nat by lia.
         rewrite firstn_O, app_nil_r. reflexivity. }
  assert (Hx : wfm_x_of rq <> []).
  { intros E. pose proof (wfm_x_length rq) as Hl. rewrite E in Hl.
    unfold sample_count in Hl. simpl in Hl. lia. }
  unfold restore_commands.
  destruct (wfm_x_of rq) as [| x0 tl]; [congruence |]. clear Hx.
  set (rc := [Write (FREQ_STAR (hd 0 (x0 :: tl)));
              Write (FREQ_STOP (last (x0 :: tl) 0)); Write INIT_CONT_1]).
  assert (Hfail : forall (e : exn) (j : nat) (done : list io),
             (0 < j <= 3)%nat ->
             firstn j rc = done ->
             exists e' k,
               (0 < k <= length (cmds ++ rc))%nat /\
               (Raise e, (h ++ cmds) ++ done) =
               (@Raise ret_data e', h ++ firstn k (cmds ++ rc))).
  { intros e j done Hj <-. exists e, (length cmds + j)%nat. split.
    - rewrite length_app. simpl. lia.
    - rewrite firstn_app_2, <- app_assoc. reflexivity. }
  rewrite run_bind. cbn [first_sample]. rewrite run_ret. cbv beta iota.
  rewrite run_bind_write. answer.
  2: { right. split; [exact Hn |]. apply (Hfail _ 1%nat); [lia | reflexivity]. }
  rewrite run_bind. unfold last_sample. rewrite run_ret. cbv beta iota.
  rewrite run_bind_write. answer.
  2: { right. split; [exact Hn |]. rewrite <- (app_assoc (h ++ cmds)).
       apply (Hfail _ 2%nat); [lia | reflexivity]. }
  rewrite run_bind_write. answer.
  2: { right. split; [exact Hn |]. rewrite <- !(app_assoc (h ++ cmds)).
       apply (Hfail _ 3%nat); [lia | reflexivity]. }
  left. split; [exact Hn |]. exists traces. split.
  { rewrite Hlen. unfold range. apply length_seq. }
  split.
  - intros i Hi. unfold range in Hreads.
    specialize (Hreads i). rewrite length_seq in Hreads.
    specialize (Hreads Hi).
    rewrite firstn_seq_prefix, seq_nth in Hreads by lia.
    exact Hreads.
  - rewrite <- !app_assoc. destruct proc; reflexivity.
Qed.

(** ** Runs of [get_data] *)

Lemma get_data_after_request (proc : option (ret_data -> ret_data))
      (I : instrument) (h h1 : list io) (rq : request) :
  read_request I h = (Ok rq, h1) ->
  get_data proc I h = stitch rq proc I h1.
Proof. intros Hrq. unfold get_data. rewrite run_bind, Hrq. reflexivity. Qed.

(** What a returning call has done. *)
Lemma get_data_returns_inv (proc : option (ret_data -> ret_data))
      (I : instrument) (h h1 log : list io) (rq : request) (data : ret_data) :
  read_request I h = (Ok rq, h1) ->
  get_data proc I h = (Ok data, log) ->
  (0 < num_segments (span rq))%Z /\
  log = h1 ++ acquisition_script rq /\
  exists traces,
    length traces = Z.to_nat (num_segments (span rq)) /\
    (forall i, (i < Z.to_nat (num_segments (span rq)))%nat ->
       I (h1 ++ flat_map (segment_commands rq) (seq 0 i) ++ segment_setup rq i)
         (QueryAsciiValues TRACE_DATA_TRACE1_q)
       = Some (Values (nth i traces []))) /\
    data = processed proc (mk_ret_data (concat traces) (wfm_x_of rq)).
Proof.
  intros Hrq Hrun. rewrite (get_data_after_request proc I h h1 rq Hrq) in Hrun.
  destruct (stitch_run rq proc I h1)
    as [(_ & H') | [(Hn & traces & Hlen & Hreads & H') | (_ & e & k & _ & H')]];
    rewrite H' in Hrun; try discriminate.
  injection Hrun as <- <-.
  split; [exact Hn |]. split; [reflexivity |].
  exists traces. repeat split; assumption.
Qed.

(** Whatever the outcome, the calls after the request are a prefix of the
    acquisition script, all of it when the call returns. *)
Lemma get_data_prefix (proc : option (ret_data -> ret_data))
      (I : instrument) (h h1 log : list io) (rq : request)
      (res : result ret_data) :
  read_request I h = (Ok rq, h1) ->
  get_data proc I h = (res, log) ->
  exists k,
    log = h1 ++ firstn k (acquisition_script rq) /\
    (forall data, res = Ok data -> k = length (acquisition_script rq)) /\
    ((0 < num_segments (span rq))%Z -> (0 < k)%nat).
Proof.
  intros Hrq Hrun. rewrite (get_data_after_request proc I h h1 rq Hrq) in Hrun.
  destruct (stitch_run rq proc I h1)
    as [(Hn & H') | [(Hn & traces & _ & _ & H') | (Hn & e & k & Hk & H')]];
    rewrite H' in Hrun; injection Hrun as <- <-.
  - exists 0%nat. rewrite firstn_O, app_nil_r.
    repeat split; [discriminate | lia].
  - exists (length (acquisition_script rq)). rewrite firstn_all.
    repeat split. unfold acquisition_script. rewrite length_app. simpl. lia.
  - exists k. repeat split; [discriminate | lia].
Qed.

Lemma no_enable_in_segments (rq : request) (segs : list nat) :
  filter is_continuous_enable (flat_map (segment_commands rq) segs) = [].
Proof. induction segs as [| seg rest IH]; [reflexivity | exact IH]. Qed.

Lemma no_enable_in_queries : filter is_continuous_enable request_queries = [].
Proof. reflexivity. Qed.

(** The calls of segment [i] inside the script. *)
Lemma script_segment (rq : request) (n i : nat) (tail : list io) :
  (i < n)%nat ->
  firstn 8 (skipn (8 * i) (flat_map (segment_commands rq) (seq 0 n) ++ tail))
  = segment_commands rq i.
Proof.
  intros Hi.
  assert (Hgen : forall s m j, (j < m)%nat ->
             firstn 8 (skipn (8 * j)
                         (flat_map (segment_commands rq) (seq s m) ++ tail))
             = segment_commands rq (s + j)).
  { intros s m. revert s. induction m as [| m IH]; intros s j Hj; [lia |].
    destruct j as [| j].
    - rewrite Nat.add_0_r. reflexivity.
    - replace (8 * S j)%nat with (8 * j + 8)%nat by lia.
      cbn [seq flat_map]. rewrite <- app_assoc, <- skipn_skipn.
      change (skipn 8 (segment_commands rq s
                         ++ flat_map (segment_commands rq) (seq (S s) m) ++ tail))
        with (flat_map (segment_commands rq) (seq (S s) m) ++ tail).
      rewrite IH by lia. f_equal. lia. }
  apply (Hgen 0%nat n i Hi).
Qed.

(** ** Ramp rates *)

Lemma step_for_cases (r : Q) :
  SPD4306X.step_for r = 1 # 1000 \/ SPD4306X.step_for r = 1 # 100 \/
  SPD4306X.step_for r = 1 # 10 \/ SPD4306X.step_for r = 1.
Proof.
  unfold SPD4306X.step_for.
  destruct (SPD4306X.lt r (1 # 100)); [auto |].
  destruct (SPD4306X.lt r (1 # 10)); [auto |].
  destruct (SPD4306X.lt r 1); auto.
Qed.

Lemma step_for_pos (r : Q) : 0 < SPD4306X.step_for r.
Proof.
  destruct (step_for_cases r) as [-> | [-> | [-> | ->]]]; reflexivity.
Qed.

Lemma true_div_pos (a b : Q) :
  0 < b -> SPD4306X.true_div a b = Ok (a / b).
Proof.
  intros Hb. unfold SPD4306X.true_div.
  destruct (Qeq_bool b 0) eqn:E; [| reflexivity].
  apply Qeq_bool_eq in E. rewrite E in Hb. discriminate.
Qed.

Lemma ramp_delay_pos (s r : Q) : 0 < s -> 0 < r -> 0 < s / r.
Proof.
  intros Hs Hr. apply Qlt_shift_div_l; [exact Hr |]. rewrite Qmult_0_l. exact Hs.
Qed.

Lemma ramp_round_trip (s r : Q) : 0 < s -> 0 < r -> s / (s / r) == r.
Proof.
  intros Hs Hr. field. split; intros E; rewrite E in *; discriminate.
Qed.

Lemma lt_spec (a b : Q) : SPD4306X.lt a b = true <-> a < b.
Proof.
  unfold SPD4306X.lt. rewrite negb_true_iff.
  destruct (Qle_bool b a) eqn:E.
  - apply Qle_bool_iff in E. split; [discriminate | intros H; lra].
  - split; [intros _ | reflexivity].
    destruct (Qlt_le_dec a b) as [H | H]; [exact H |].
    apply Qle_bool_iff in H. congruence.
Qed.

Lemma lt_false (a b : Q) : b <= a -> SPD4306X.lt a b = false.
Proof.
  intros H. destruct (SPD4306X.lt a b) eqn:E; [| reflexivity].
  apply lt_spec in E. lra.
Qed.

(** The step is picked by the three thresholds 0.01, 0.1 and 1. *)
Lemma step_for_thresholds (r : Q) :
  (r < 1 # 100 -> SPD4306X.step_for r = 1 # 1000) /\
  (1 # 100 <= r -> r < 1 # 10 -> SPD4306X.step_for r = 1 # 100) /\
  (1 # 10 <= r -> r < 1 -> SPD4306X.step_for r = 1 # 10) /\
  (1 <= r -> SPD4306X.step_for r = 1).
Proof.
  unfold SPD4306X.step_for. repeat split.
  - intros H. apply lt_spec in H. rewrite H. reflexivity.
  - intros H1 H2. rewrite (lt_false _ _ H1). apply lt_spec in H2.
    rewrite H2. reflexivity.
  - intros H1 H2. rewrite (lt_false r (1 # 100)) by lra.
    rewrite (lt_false _ _ H1). apply lt_spec in H2. rewrite H2. reflexivity.
  - intros H. rewrite (lt_false r (1 # 100)), (lt_false r (1 # 10)) by lra.
    rewrite (lt_false _ _ H). reflexivity.
Qed.

(** ** The scripted instrument *)

Lemma mock_traces_full (rq : request) (fail_at : option nat) :
  traces_full (Mock.instrument rq Mock.flat_trace fail_at).
Proof.
  intros h l. unfold Mock.instrument.
  destruct (match fail_at with Some k => Nat.eqb (length h) k | None => false end);
    [discriminate |].
  intros E. injection E as <-. apply repeat_length.
Qed.

Lemma mock_read_request (rq : request) :
  read_request (Mock.instrument rq Mock.flat_trace None) []
  = (Ok rq, request_queries).
Proof. destruct rq as [sp st en [|] cnt]; reflexivity. Qed.

(** ** A responsive instrument lets the call return *)

(** The instrument answered: the failing branch contradicts [H]. *)
Ltac answered H :=
  match goal with
  | |- context [match ?I ?h ?c with Some _ => _ | None => _ end] =>
      let E := fresh "E" in
      destruct (I h c) eqn:E; [| exfalso; exact (H _ _ E)]
  end.

Lemma acquire_segment_returns (rq : request) (seg : nat) (acc : list Q)
      (I : instrument) (h : list io) :
  responsive I ->
  exists l,
    acquire_segment rq seg acc I h
    = (Ok (acc ++ l), h ++ segment_commands rq seg).
Proof.
  intros (Hw & Ha & Hq). unfold acquire_segment, segment_commands.
  rewrite run_bind_write. answered Hw.
  rewrite run_bind_write. answered Hw.
  rewrite run_bind_write. answered Hw.
  rewrite run_bind_ask. answered Ha.
  rewrite run_bind_write. answered Hw.
  rewrite run_bind_write. answered Hw.
  rewrite run_bind_write. answered Hw.
  rewrite run_bind_query.
  match goal with
  | |- context [I ?hh (QueryAsciiValues TRACE_DATA_TRACE1_q)] =>
      destruct (Hq hh) as (l & ->)
  end.
  exists l. rewrite <- !app_assoc. reflexivity.
Qed.

Lemma acquire_segments_returns (rq : request) (segs : list nat) :
  forall (acc : list Q) (I : instrument) (h : list io),
  responsive I ->
  exists data,
    acquire_segments rq segs acc I h
    = (Ok data, h ++ flat_map (segment_commands rq) segs).
Proof.
  induction segs as [| seg rest IH]; intros acc I h HI.
  - exists acc. simpl. rewrite app_nil_r. reflexivity.
  - cbn [acquire_segments flat_map]. rewrite run_bind.
    destruct (acquire_segment_returns rq seg acc I h HI) as (l & ->).
    destruct (IH (acc ++ l) I (h ++ segment_commands rq seg) HI) as (data & ->).
    exists data. rewrite <- app_assoc. reflexivity.
Qed.

(** On a responsive instrument a request of positive span is acquired to
    the end: the call returns, whatever the frequencies of the request. *)
Lemma get_data_returns (proc : option (ret_data -> ret_data)) (I : instrument)
      (h h1 : list io) (rq : request) :
  responsive I ->
  read_request I h = (Ok rq, h1) ->
  0 < span rq ->
  exists data, get_data proc I h = (Ok data, h1 ++ acquisition_script rq).
Proof.
  intros HI Hrq Hsp. pose proof (num_segments_pos _ Hsp) as Hn.
  rewrite (get_data_after_request proc I h h1 rq Hrq).
  unfold stitch, acquisition_script, restore_commands.
  rewrite run_bind, (concatenate_freqs_run rq Hn), run_ret. cbv beta iota.
  rewrite run_bind.
  destruct (acquire_segments_returns rq (range (num_segments (span rq))) []
              I h1 HI) as (wfm_data & ->).
  cbv beta iota.
  assert (Hx : wfm_x_of rq <> []).
  { intros E. pose proof (wfm_x_length rq) as Hl. rewrite E in Hl.
    unfold sample_count in Hl. simpl in Hl. lia. }
  destruct (wfm_x_of rq) as [| x0 tl]; [congruence |]. clear Hx.
  destruct HI as (Hw & _ & _).
  rewrite run_bind. cbn [first_sample]. rewrite run_ret. cbv beta iota.
  rewrite run_bind_write. answered Hw.
  rewrite run_bind. unfold last_sample. rewrite run_ret. cbv beta iota.
  rewrite run_bind_write. answered Hw.
  rewrite run_bind_write. answered Hw.
  rewrite <- !app_assoc. destruct proc; eexists; reflexivity.
Qed.

(** ** Sizes of the returned arrays *)

Lemma returned_traces_blocks (I : instrument) (h1 : list io) (rq : request)
      (traces : list (list Q)) :
  traces_full I ->
  length traces = Z.to_nat (num_segments (span rq)) ->
  (forall i, (i < Z.to_nat (num_segments (span rq)))%nat ->
     I (h1 ++ flat_map (segment_commands rq) (seq 0 i) ++ segment_setup rq i)
       (QueryAsciiValues TRACE_DATA_TRACE1_q)
     = Some (Values (nth i traces []))) ->
  Forall (fun l => length l = sample_count) traces.
Proof.
  intros Hfull Hlen Hreads. apply Forall_forall. intros l Hin.
  destruct (In_nth traces l [] Hin) as (i & Hi & <-).
  rewrite Hlen in Hi. apply (Hfull _ _ (Hreads i Hi)).
Qed.

Lemma returned_lengths (I : instrument) (h h1 log : list io) (rq : request)
      (data : ret_data) :
  read_request I h = (Ok rq, h1) ->
  get_data None I h = (Ok data, log) ->
  traces_full I ->
  length (Power_dBm data)
  = (Z.to_nat (num_segments (span rq)) * sample_count)%nat /\
  length (Frequency data)
  = (Z.to_nat (num_segments (span rq)) * sample_count)%nat.
Proof.
  intros Hrq Hrun Hfull.
  destruct (get_data_returns_inv None I h h1 log rq data Hrq Hrun)
    as (_ & _ & traces & Hlen & Hreads & ->).
  cbn [processed Power_dBm Frequency]. split; [| apply wfm_x_length].
  rewrite (length_concat_blocks sample_count), Hlen; [reflexivity |].
  apply (returned_traces_blocks I h1 rq); assumption.
Qed.

(** ** What binary64 rounding does to the segment arithmetic and to the
    ramp rates *)

Module B64Facts.
Import PrimFloat.
#[local] Set Warnings "-inexact-float".
#[local] Open Scope float_scope.

(** C2, the claim as stated fails on the floats the code computes with.
    For a request from 9000.001 Hz to 1200009000.001 Hz (span 1.2e9, three
    segments) the window sent for segment 1 stops at 1000009000.0009999 Hz,
    below the 1000009000.001 Hz at which the window of segment 2 starts:
    [(start + 1 * 5e8) + 5e8] and [start + 2 * 5e8] round differently, and
    the frequencies between the two belong to no window. *)
Lemma segment_windows_counterexample :
  let start_freq := 9000.001 in
  let stop_freq := 1200009000.001 in
  (start_freq <? stop_freq) = true /\
  stop_freq - start_freq = 1.2e9 /\
  B64.num_segments 1.2e9 = Some 3%Z /\
  B64.seg_stop start_freq stop_freq 1 = 1000009000.0009999 /\
  B64.seg_start start_freq 2 = 1000009000.001 /\
  (B64.seg_stop start_freq stop_freq 1 <? B64.seg_start start_freq 2) = true.
Proof. vm_compute. repeat split. Qed.

(** C4, the claim as stated fails on the floats the code computes with.
    For a request from 0.16 Hz to 1200000000.16 Hz (span 1.2e9) the last
    sample of segment 1, at position 921, is 1000000000.1600001 Hz and the
    first sample of segment 2, at position 922, is 1000000000.16 Hz: the
    axis decreases there and the two boundary samples differ. *)
Lemma axis_counterexample :
  let start_freq := 0.16 in
  let stop_freq := 1200000000.16 in
  (start_freq <? stop_freq) = true /\
  stop_freq - start_freq = 1.2e9 /\
  exists wfm_x,
    B64.wfm_x 1.2e9 start_freq stop_freq = Some wfm_x /\
    nth 921 wfm_x 0 = 1000000000.1600001 /\
    nth 922 wfm_x 0 = 1000000000.16 /\
    (nth 922 wfm_x 0 <? nth 921 wfm_x 0) = true /\
    B64.decreases wfm_x = true.
Proof.
  cbv zeta. split; [vm_compute; reflexivity |].
  split; [vm_compute; reflexivity |].
  eexists. split; [vm_compute; reflexivity |].
  vm_compute. repeat split.
Qed.

(** C10, the claim as stated fails on the floats the code computes with:
    after [RampRateVoltage = 49.0] the property reads 49.000000000000007,
    and after [RampRateVoltage = 1e-320] the delay is [inf] and the
    property reads 0.0. *)
Lemma ramp_rate_counterexample :
  let ch := B64.mk_channel (B64.mk_parameter 1 0) (B64.mk_parameter 1 0) in
  ((0 <? 49) = true /\
   fst (B64.set_RampRateVoltage 49 ch) = Ok tt /\
   B64.RampRateVoltage (snd (B64.set_RampRateVoltage 49 ch))
   = Ok 49.000000000000007 /\
   (49.000000000000007 =? 49) = false) /\
  ((0 <? 1e-320) = true /\
   fst (B64.set_RampRateVoltage 1e-320 ch) = Ok tt /\
   B64.inter_delay (B64.voltage (snd (B64.set_RampRateVoltage 1e-320 ch)))
   = infinity /\
   B64.RampRateVoltage (snd (B64.set_RampRateVoltage 1e-320 ch)) = Ok 0).
Proof. vm_compute. repeat split. Qed.

(** A positive span can be too small for one segment: [5e-324 / 5e8]
    rounds to zero, and so does the segment count.  Spans of whole Hz
    behave as in exact arithmetic. *)
Lemma num_segments_underflow :
  (0 <? 5e-324) = true /\ B64.num_segments 5e-324 = Some 0%Z /\
  B64.wfm_x 5e-324 0 5e-324 = None.
Proof. vm_compute. repeat split. Qed.

Lemma num_segments_examples :
  B64.num_segments 1 = Some 1%Z /\
  B64.num_segments 5e8 = Some 1%Z /\
  B64.num_segments 500000001 = Some 2%Z /\
  B64.num_segments 1.2e9 = Some 3%Z /\
  B64.num_segments 0 = Some 0%Z /\
  B64.num_segments (-1) = Some 0%Z /\
  B64.num_segments nan = None /\
  B64.num_segments infinity = None.
Proof. vm_compute. repeat split. Qed.

(** On the request from 0 Hz to 1.2 GHz nothing is rounded in the windows:
    they are what exact arithmetic gives. *)
Lemma windows_exact_example :
  map (fun seg => (B64.seg_start 0 seg, B64.seg_stop 0 1.2e9 seg)) (seq 0 3)
  = [(0, 5e8); (5e8, 1e9); (1e9, 1.2e9)].
Proof. vm_compute. reflexivity. Qed.

End B64Facts.

(** * The claims *)

(** C1. When every trace read returns exactly 461 values, the amplitude
    array of a returning [get_data] call has [num_segments * 461] entries,
    as many as the frequency array; entry [i * 461 + k] is value [k] of the
    trace read for segment [i], and the frequency at the same position is
    sample [k] of segment [i]'s axis. *)
Theorem get_data_amplitude_length (I : instrument) (h h1 log : list io)
        (rq : request) (data : ret_data) :
  read_request I h = (Ok rq, h1) ->
  get_data None I h = (Ok data, log) ->
  traces_full I ->
  length (Power_dBm data) = (Z.to_nat (num_segments (span rq)) * 461)%nat /\
  length (Frequency data) = length (Power_dBm data) /\
  forall i k,
    (i < Z.to_nat (num_segments (span rq)))%nat -> (k < 461)%nat ->
    exists trace,
      I (h1 ++ flat_map (segment_commands rq) (seq 0 i) ++ segment_setup rq i)
        (QueryAsciiValues TRACE_DATA_TRACE1_q) = Some (Values trace) /\
      nth_error (Power_dBm data) (i * 461 + k) = nth_error trace k /\
      nth_error (Frequency data) (i * 461 + k)
      = Some (Np.linspace_at (seg_start (start_freq rq) i)
                             (seg_stop (start_freq rq) (stop_freq rq) i) 461 k).
Proof.
  intros Hrq Hrun Hfull.
  destruct (returned_lengths I h h1 log rq data Hrq Hrun Hfull) as (Hamp & Hfreq).
  split; [exact Hamp |]. split; [rewrite Hamp; exact Hfreq |].
  destruct (get_data_returns_inv None I h h1 log rq data Hrq Hrun)
    as (_ & _ & traces & Hlen & Hreads & ->).
  cbn [processed Power_dBm Frequency].
  intros i k Hi Hk. exists (nth i traces []). split; [apply Hreads; exact Hi |].
  split.
  - apply (nth_error_concat_blocks sample_count); [| exact Hk].
    apply (returned_traces_blocks I h1 rq); assumption.
  - apply (axis_sample (span rq) (start_freq rq) (stop_freq rq)); assumption.
Qed.

Lemma get_data_amplitude_length_witness :
  let I := Mock.instrument Mock.rq_wide Mock.flat_trace None in
  let data := Mock.data_of (get_data None I []) in
  length (Power_dBm data) = 1383%nat /\
  length (Frequency data) = length (Power_dBm data).
Proof.
  intros I data.
  assert (Hrq : read_request I [] = (Ok Mock.rq_wide, request_queries))
    by (vm_compute; reflexivity).
  assert (Hrun : get_data None I [] = (Ok data, snd (get_data None I [])))
    by (vm_compute; reflexivity).
  destruct (get_data_amplitude_length I [] request_queries _ Mock.rq_wide data
              Hrq Hrun (mock_traces_full Mock.rq_wide None)) as (Hlen & Hsame & _).
  split; [exact Hlen | exact Hsame].
Defined.

Lemma skipn_prefix {A : Type} (l1 l2 : list A) : skipn (length l1) (l1 ++ l2) = l2.
Proof. rewrite skipn_app, skipn_all, Nat.sub_diag. reflexivity. Qed.

(** C2, amended. For a request with [start_freq < stop_freq] whose span is
    [stop_freq - start_freq], [get_data] uses [ceil(span / 5e8)] segments
    and sends for segment [i] the window from [start_freq + i * 5e8] to
    [min(seg_start + 5e8, stop_freq)]; in exact arithmetic these windows
    are chained end to start from [start_freq] to [stop_freq], so every
    frequency of the request lies in one of them. *)
Theorem get_data_segment_windows (I : instrument) (h h1 log : list io)
        (rq : request) (data : ret_data) :
  read_request I h = (Ok rq, h1) ->
  get_data None I h = (Ok data, log) ->
  start_freq rq < stop_freq rq ->
  span rq == stop_freq rq - start_freq rq ->
  let st := start_freq rq in
  let en := stop_freq rq in
  let n := Z.to_nat (num_segments (span rq)) in
  num_segments (span rq) = Qceiling (span rq / 500000000) /\
  (0 < num_segments (span rq))%Z /\
  (forall i, (i < n)%nat ->
     firstn 2 (skipn (8 * i) (skipn (length h1) log))
     = [Write (FREQ_STAR (st + inject_Z (Z.of_nat i) * 500000000));
        Write (FREQ_STOP
                 (Qmin (st + inject_Z (Z.of_nat i) * 500000000 + 500000000) en))]) /\
  seg_start st 0 == st /\
  (forall i, (S i < n)%nat -> seg_stop st en i == seg_start st (S i)) /\
  seg_stop st en (n - 1) == en /\
  (forall i, (i < n)%nat -> seg_start st i < seg_stop st en i) /\
  (forall f, st <= f <= en ->
     exists i, (i < n)%nat /\ seg_start st i <= f <= seg_stop st en i).
Proof.
  intros Hrq Hrun Horder Hspan st en n.
  destruct (get_data_returns_inv None I h h1 log rq data Hrq Hrun)
    as (Hn & -> & _).
  split; [reflexivity |]. split; [exact Hn |]. split.
  { intros i Hi. rewrite skipn_prefix. unfold acquisition_script, range.
    change 2%nat with (Nat.min 2 8). rewrite <- firstn_firstn.
    rewrite (script_segment rq _ i _ Hi). reflexivity. }
  split; [apply seg_start_0 |]. split.
  { intros i Hi. apply (seg_stop_inner (span rq) st en Hspan). lia. }
  split.
  { apply (seg_stop_last (span rq) st en Hspan). lia. }
  split.
  { intros i Hi. apply (seg_start_lt_seg_stop (span rq) st en Hspan). lia. }
  intros f Hf. apply (segments_cover (span rq) st en Hspan Horder f Hf).
Qed.

Lemma get_data_segment_windows_witness :
  let I := Mock.instrument Mock.rq_wide Mock.flat_trace None in
  num_segments (span Mock.rq_wide) = 3%Z /\
  seg_stop 0 1200000000 0 == seg_start 0 1 /\
  seg_stop 0 1200000000 2 == 1200000000 /\
  exists i, (i < 3)%nat /\
            seg_start 0 i <= 700000000 <= seg_stop 0 1200000000 i.
Proof.
  intros I.
  assert (Hrq : read_request I [] = (Ok Mock.rq_wide, request_queries))
    by apply mock_read_request.
  assert (Hrun : get_data None I []
                 = (Ok (Mock.data_of (get_data None I [])),
                    snd (get_data None I [])))
    by (vm_compute; reflexivity).
  assert (Horder : start_freq Mock.rq_wide < stop_freq Mock.rq_wide)
    by reflexivity.
  assert (Hspan : span Mock.rq_wide
                  == stop_freq Mock.rq_wide - start_freq Mock.rq_wide)
    by reflexivity.
  destruct (get_data_segment_windows I [] request_queries _ Mock.rq_wide _
              Hrq Hrun Horder Hspan)
    as (Hceil & _ & _ & _ & Hchain & Hlast & _ & Hcover).
  split; [vm_compute; reflexivity |]. split; [apply (Hchain 0%nat); vm_compute; lia |].
  split; [exact Hlast |].
  apply Hcover. split; discriminate.
Defined.

Lemma get_data_request (proc : option (ret_data -> ret_data)) (I : instrument)
      (h log : list io) (data : ret_data) :
  get_data proc I h = (Ok data, log) ->
  exists rq, read_request I h = (Ok rq, h ++ request_queries).
Proof.
  intros Hrun.
  destruct (read_request_run I h) as [(rq & Hrq) | (e & k & _ & Hrq)].
  - exists rq. exact Hrq.
  - unfold get_data in Hrun. rewrite run_bind, Hrq in Hrun. discriminate.
Qed.

Lemma filter_firstn_nil {A : Type} (p : A -> bool) (k : nat) (l : list A) :
  filter p l = [] -> filter p (firstn k l) = [].
Proof.
  revert k. induction l as [| x l IH]; intros [| k] Hl; try reflexivity.
  simpl in *. destruct (p x); [discriminate | apply IH; exact Hl].
Qed.

(** A call that raises inside the segment loop stops there: nothing is
    restored and continuous sweep stays off. *)
Lemma get_data_raises_in_segment (proc : option (ret_data -> ret_data))
      (I : instrument) (h h1 log : list io) (rq : request) (e : exn) :
  read_request I h = (Ok rq, h1) ->
  acquire_segments rq (range (num_segments (span rq))) [] I h1 = (Raise e, log) ->
  get_data proc I h = (Raise e, log) /\
  filter is_continuous_enable (skipn (length h) log) = [].
Proof.
  intros Hrq Hloop.
  assert (Hn : (0 < num_segments (span rq))%Z).
  { destruct (Z_lt_le_dec 0 (num_segments (span rq))) as [Hn | Hn]; [exact Hn |].
    unfold range in Hloop.
    replace (Z.to_nat (num_segments (span rq))) with 0%nat in Hloop by lia.
    discriminate. }
  split.
  - rewrite (get_data_after_request proc I h h1 rq Hrq). unfold stitch.
    rewrite run_bind, (concatenate_freqs_run rq Hn), run_ret. cbv beta iota.
    rewrite run_bind, Hloop. reflexivity.
  - destruct (acquire_segments_run rq (range (num_segments (span rq))) [] I h1)
      as [(traces & _ & _ & H') | (e' & k & _ & H')];
      rewrite H' in Hloop; [discriminate |].
    injection Hloop as _ <-.
    rewrite (read_request_log I h h1 rq Hrq), <- app_assoc, skipn_prefix.
    rewrite filter_app, no_enable_in_queries.
    apply filter_firstn_nil, no_enable_in_segments.
Qed.

(** C3, the claim as stated fails: when the first trace read times out the
    call raises with the failing read as its last transport call; the
    window is not restored and continuous sweep is not re-enabled. *)
Lemma get_data_restore_counterexample :
  let I := Mock.instrument Mock.rq_wide Mock.flat_trace (Some 12%nat) in
  fst (get_data None I []) = Raise VisaIOError /\
  snd (get_data None I [])
  = request_queries ++ segment_commands Mock.rq_wide 0 /\
  filter is_continuous_enable (snd (get_data None I [])) = [].
Proof. vm_compute. repeat split. Qed.

(** C3, amended. A [get_data] call that returns has, as its last three
    transport calls, set the start frequency to the first sample of the
    stitched axis, the stop frequency to its last sample, and enabled
    continuous sweep; no earlier call of the run enables it. *)
Theorem get_data_restores_on_return (I : instrument) (h log : list io)
        (data : ret_data) :
  get_data None I h = (Ok data, log) ->
  exists calls,
    log = h ++ calls
            ++ [Write (FREQ_STAR (hd 0 (Frequency data)));
                Write (FREQ_STOP (last (Frequency data) 0));
                Write INIT_CONT_1] /\
    filter is_continuous_enable calls = [].
Proof.
  intros Hrun. destruct (get_data_request None I h log data Hrun) as (rq & Hrq).
  destruct (get_data_returns_inv None I h _ log rq data Hrq Hrun)
    as (_ & -> & traces & _ & _ & ->).
  cbn [processed Frequency].
  exists (request_queries
            ++ flat_map (segment_commands rq) (range (num_segments (span rq)))).
  split.
  - unfold acquisition_script, restore_commands. rewrite <- !app_assoc.
    reflexivity.
  - rewrite filter_app, no_enable_in_queries, no_enable_in_segments.
    reflexivity.
Qed.

Lemma get_data_restores_on_return_witness :
  let I := Mock.instrument Mock.rq_wide Mock.flat_trace None in
  exists calls,
    snd (get_data None I [])
    = calls ++ [Write (FREQ_STAR (hd 0 (Frequency (Mock.data_of (get_data None I [])))));
                Write (FREQ_STOP 1200000000); Write INIT_CONT_1] /\
    filter is_continuous_enable calls = [].
Proof.
  intros I.
  assert (Hrun : get_data None I []
                 = (Ok (Mock.data_of (get_data None I [])),
                    snd (get_data None I [])))
    by (vm_compute; reflexivity).
  destruct (get_data_restores_on_return I [] _ _ Hrun) as (calls & Hlog & Hnone).
  exists calls. split; [exact Hlog | exact Hnone].
Defined.

(** C4, amended. In exact arithmetic, for a request with
    [start_freq < stop_freq] whose span is [stop_freq - start_freq], the
    frequency array of a returning call never decreases, and at each inner
    segment boundary the last sample of segment [i] (position
    [i * 461 + 460]) equals the first sample of segment [i + 1] (position
    [(i + 1) * 461]). *)
Theorem get_data_axis_nondecreasing (I : instrument) (h h1 log : list io)
        (rq : request) (data : ret_data) :
  read_request I h = (Ok rq, h1) ->
  get_data None I h = (Ok data, log) ->
  start_freq rq < stop_freq rq ->
  span rq == stop_freq rq - start_freq rq ->
  nondecreasing (Frequency data) /\
  (forall i j, (i <= j)%nat -> (j < length (Frequency data))%nat ->
     nth i (Frequency data) 0 <= nth j (Frequency data) 0) /\
  (forall i, (S i < Z.to_nat (num_segments (span rq)))%nat ->
     nth (i * 461 + 460) (Frequency data) 0
     == nth (S i * 461) (Frequency data) 0).
Proof.
  intros Hrq Hrun Horder Hspan.
  destruct (get_data_returns_inv None I h h1 log rq data Hrq Hrun)
    as (_ & _ & traces & _ & _ & ->).
  cbn [processed Frequency].
  pose proof (axis_nondecreasing (span rq) (start_freq rq) (stop_freq rq)
                Hspan Horder) as Hmono.
  split; [exact Hmono |]. split.
  - apply nondecreasing_nth. exact Hmono.
  - intros i Hi.
    apply (axis_boundary (span rq) (start_freq rq) (stop_freq rq) Hspan i Hi).
Qed.

Lemma get_data_axis_nondecreasing_witness :
  let I := Mock.instrument Mock.rq_wide Mock.flat_trace None in
  let data := Mock.data_of (get_data None I []) in
  nondecreasing (Frequency data) /\
  nth 460 (Frequency data) 0 == nth 461 (Frequency data) 0 /\
  nth 921 (Frequency data) 0 == nth 922 (Frequency data) 0.
Proof.
  intros I data.
  assert (Hrun : get_data None I [] = (Ok data, snd (get_data None I [])))
    by (vm_compute; reflexivity).
  destruct (get_data_axis_nondecreasing I [] request_queries _ Mock.rq_wide data
              (mock_read_request Mock.rq_wide) Hrun)
    as (Hmono & _ & Hdup); [reflexivity | reflexivity |].
  split; [exact Hmono |]. split.
  - apply (Hdup 0%nat). vm_compute. lia.
  - apply (Hdup 1%nat). vm_compute. lia.
Defined.





(** C7, the claim as stated fails: a window from -1 GHz to 1 GHz is read
    back and acquired like any other; the call returns after sending the
    commands of four segments, the first of them starting at -1 GHz. *)
Lemma get_data_validation_counterexample :
  let I := Mock.instrument Mock.rq_negative Mock.flat_trace None in
  fst (get_data None I [])
  = Ok (Mock.data_of (get_data None I [])) /\
  firstn 2 (skipn 5 (snd (get_data None I [])))
  = [Write (FREQ_STAR (-1000000000)); Write (FREQ_STOP (-500000000))] /\
  length (filter is_trace_read (snd (get_data None I []))) = 4%nat.
Proof. vm_compute. repeat split. Qed.

(** C7, amended. [get_data] does not compare the request with anything the
    instrument is capable of.  Once the request is read, the call raises
    [ValueError] before any segment command when the segment count
    [int(np.ceil(span / 5e8))] is not positive (there is then no segment to
    concatenate); for every request with at least one segment, whatever
    its frequencies, the start frequency command of segment 0 is sent. *)
Theorem get_data_rejects_only_without_segments (I : instrument)
        (h h1 log : list io) (rq : request) (res : result ret_data) :
  read_request I h = (Ok rq, h1) ->
  get_data None I h = (res, log) ->
  ((num_segments (span rq) <= 0)%Z -> res = Raise ValueError /\ log = h1) /\
  ((0 < num_segments (span rq))%Z ->
   exists rest,
     log = h1 ++ Write (FREQ_STAR (seg_start (start_freq rq) 0)) :: rest).
Proof.
  intros Hrq Hrun. split.
  - intros Hn.
    rewrite (get_data_after_request None I h h1 rq Hrq) in Hrun.
    destruct (stitch_run rq None I h1)
      as [(_ & H') | [(Hpos & _) | (Hpos & _)]]; try lia.
    rewrite H' in Hrun. injection Hrun as <- <-. split; reflexivity.
  - intros Hn.
    destruct (get_data_prefix None I h h1 log rq res Hrq Hrun)
      as (k & -> & _ & Hk).
    specialize (Hk Hn). unfold acquisition_script, range.
    destruct (Z.to_nat (num_segments (span rq))) as [| n] eqn:En; [lia |].
    destruct k as [| k]; [lia |].
    cbn [seq flat_map segment_commands app firstn]. eexists. reflexivity.
Qed.

Lemma get_data_rejects_only_without_segments_witness :
  let I := Mock.instrument Mock.rq_negative Mock.flat_trace None in
  num_segments (span Mock.rq_negative) = 4%Z /\
  exists rest,
    snd (get_data None I [])
    = request_queries ++ Write (FREQ_STAR (-1000000000)) :: rest.
Proof.
  intros I. split; [vm_compute; reflexivity |].
  destruct (get_data_rejects_only_without_segments I [] request_queries
              (snd (get_data None I [])) Mock.rq_negative
              (fst (get_data None I []))
              (mock_read_request Mock.rq_negative))
    as (_ & Hsent).
  - destruct (get_data None I []); reflexivity.
  - destruct Hsent as (rest & Hlog); [vm_compute; reflexivity |].
    exists rest. exact Hlog.
Defined.

(** C8. When the request reads start 0 Hz, stop 1.2 GHz and span 1.2 GHz,
    a returning call used 3 segments with the windows [0, 5e8],
    [5e8, 1e9] and [1e9, 1.2e9]; its frequency array has 1383 entries, and
    so has its amplitude array when every trace read returns 461 values. *)
Theorem get_data_three_segments (I : instrument) (h h1 log : list io)
        (a_state : bool) (a_count : Z) (data : ret_data) :
  read_request I h
  = (Ok (mk_request 1200000000 0 1200000000 a_state a_count), h1) ->
  get_data None I h = (Ok data, log) ->
  traces_full I ->
  num_segments 1200000000 = 3%Z /\
  firstn 2 (skipn (length h1) log)
  = [Write (FREQ_STAR 0); Write (FREQ_STOP 500000000)] /\
  firstn 2 (skipn 8 (skipn (length h1) log))
  = [Write (FREQ_STAR 500000000); Write (FREQ_STOP 1000000000)] /\
  firstn 2 (skipn 16 (skipn (length h1) log))
  = [Write (FREQ_STAR 1000000000); Write (FREQ_STOP 1200000000)] /\
  length (filter is_trace_read (skipn (length h1) log)) = 3%nat /\
  length (Frequency data) = 1383%nat /\
  length (Power_dBm data) = 1383%nat.
Proof.
  intros Hrq Hrun Hfull.
  destruct (returned_lengths I h h1 log _ data Hrq Hrun Hfull)
    as (Hamp & Hfreq).
  destruct (get_data_returns_inv None I h h1 log _ data Hrq Hrun)
    as (_ & -> & _).
  rewrite skipn_prefix, Hfreq, Hamp.
  destruct a_state; vm_compute; repeat split.
Qed.

Lemma get_data_three_segments_witness :
  let I := Mock.instrument Mock.rq_wide Mock.flat_trace None in
  let data := Mock.data_of (get_data None I []) in
  num_segments 1200000000 = 3%Z /\
  firstn 2 (skipn 16 (skipn 5 (snd (get_data None I []))))
  = [Write (FREQ_STAR 1000000000); Write (FREQ_STOP 1200000000)] /\
  length (Frequency data) = 1383%nat /\
  length (Power_dBm data) = 1383%nat.
Proof.
  intros I data.
  assert (Hrun : get_data None I [] = (Ok data, snd (get_data None I [])))
    by (vm_compute; reflexivity).
  destruct (get_data_three_segments I [] request_queries _ true 10 data
              (mock_read_request Mock.rq_wide) Hrun
              (mock_traces_full Mock.rq_wide None))
    as (Hn & _ & _ & Hthird & _ & Hfreq & Hamp).
  split; [exact Hn |]. split; [exact Hthird |]. split; [exact Hfreq | exact Hamp].
Defined.

(** C9. Reading [SweepPoints] gives 461 and makes no transport call;
    assigning it any value raises [NotImplementedError] and makes no
    transport call either. *)
Theorem SweepPoints_fixed (I : instrument) (h : list io) :
  SweepPoints I h = (Ok 461%nat, h) /\
  forall (V : Type) (vals : V),
    set_SweepPoints vals I h = (Raise NotImplementedError, h).
Proof. split; [reflexivity | intros V vals; reflexivity]. Qed.

(** C10, amended.  For a positive ramp rate [r], assigning
    [RampRateVoltage] (resp. [RampRateCurrent]) succeeds; the step is 0.001
    for [r < 0.01], 0.01 for [0.01 <= r < 0.1], 0.1 for [0.1 <= r < 1] and 1
    for [1 <= r]; [inter_delay] is [step / r]; the other parameter is left
    alone; and in exact arithmetic reading the property back gives [r]. *)
Theorem ramp_rate_round_trip (r : Q) (ch : SPD4306X.channel) :
  0 < r ->
  (exists ch' v,
      SPD4306X.set_RampRateVoltage r ch = (Ok tt, ch') /\
      (r < 1 # 100 -> SPD4306X.step (SPD4306X.voltage ch') = 1 # 1000) /\
      (1 # 100 <= r -> r < 1 # 10 ->
       SPD4306X.step (SPD4306X.voltage ch') = 1 # 100) /\
      (1 # 10 <= r -> r < 1 ->
       SPD4306X.step (SPD4306X.voltage ch') = 1 # 10) /\
      (1 <= r -> SPD4306X.step (SPD4306X.voltage ch') = 1) /\
      SPD4306X.inter_delay (SPD4306X.voltage ch')
      = SPD4306X.step (SPD4306X.voltage ch') / r /\
      SPD4306X.current ch' = SPD4306X.current ch /\
      SPD4306X.RampRateVoltage ch' = Ok v /\ v == r) /\
  (exists ch' v,
      SPD4306X.set_RampRateCurrent r ch = (Ok tt, ch') /\
      (r < 1 # 100 -> SPD4306X.step (SPD4306X.current ch') = 1 # 1000) /\
      (1 # 100 <= r -> r < 1 # 10 ->
       SPD4306X.step (SPD4306X.current ch') = 1 # 100) /\
      (1 # 10 <= r -> r < 1 ->
       SPD4306X.step (SPD4306X.current ch') = 1 # 10) /\
      (1 <= r -> SPD4306X.step (SPD4306X.current ch') = 1) /\
      SPD4306X.inter_delay (SPD4306X.current ch')
      = SPD4306X.step (SPD4306X.current ch') / r /\
      SPD4306X.voltage ch' = SPD4306X.voltage ch /\
      SPD4306X.RampRateCurrent ch' = Ok v /\ v == r).
Proof.
  intros Hr.
  pose proof (step_for_pos r) as Hs.
  pose proof (ramp_delay_pos _ _ Hs Hr) as Hd.
  destruct (step_for_thresholds r) as (H1 & H2 & H3 & H4).
  assert (Hnn : SPD4306X.lt (SPD4306X.step_for r / r) 0 = false)
    by (apply lt_false; lra).
  split.
  - unfold SPD4306X.set_RampRateVoltage, SPD4306X.RampRateVoltage.
    cbn [SPD4306X.voltage SPD4306X.current SPD4306X.step SPD4306X.inter_delay].
    rewrite (true_div_pos _ r Hr), Hnn.
    eexists. exists (SPD4306X.step_for r / (SPD4306X.step_for r / r)).
    split; [reflexivity |].
    cbn [SPD4306X.voltage SPD4306X.current SPD4306X.step SPD4306X.inter_delay].
    repeat split; try assumption.
    + apply true_div_pos. exact Hd.
    + apply ramp_round_trip; assumption.
  - unfold SPD4306X.set_RampRateCurrent, SPD4306X.RampRateCurrent.
    cbn [SPD4306X.voltage SPD4306X.current SPD4306X.step SPD4306X.inter_delay].
    rewrite (true_div_pos _ r Hr), Hnn.
    eexists. exists (SPD4306X.step_for r / (SPD4306X.step_for r / r)).
    split; [reflexivity |].
    cbn [SPD4306X.voltage SPD4306X.current SPD4306X.step SPD4306X.inter_delay].
    repeat split; try assumption.
    + apply true_div_pos. exact Hd.
    + apply ramp_round_trip; assumption.
Qed.

Lemma ramp_rate_round_trip_witness :
  let ch := SPD4306X.mk_channel (SPD4306X.mk_parameter 1 0)
                                (SPD4306X.mk_parameter 1 0) in
  exists ch' v,
    SPD4306X.set_RampRateVoltage (3 # 100) ch = (Ok tt, ch') /\
    SPD4306X.step (SPD4306X.voltage ch') = 1 # 100 /\
    SPD4306X.inter_delay (SPD4306X.voltage ch') = (1 # 100) / (3 # 100) /\
    SPD4306X.RampRateVoltage ch' = Ok v /\ v == 3 # 100.
Proof.
  intros ch.
  destruct (ramp_rate_round_trip (3 # 100) ch)
    as ((ch' & v & Hset & _ & Hstep & _ & _ & Hdelay & _ & Hget & Hv) & _);
    [reflexivity |].
  exists ch', v. split; [exact Hset |].
  assert (Hs : SPD4306X.step (SPD4306X.voltage ch') = 1 # 100)
    by (apply Hstep; [discriminate | reflexivity]).
  split; [exact Hs |]. split; [rewrite Hdelay, Hs; reflexivity |].
  split; [exact Hget | exact Hv].
Defined.

(** * Further properties *)

(** ** [get_data] *)

Lemma mock_responsive (rq : request) (trace : nat -> list Q) :
  responsive (Mock.instrument rq trace None).
Proof.
  repeat split.
  - intros h c. discriminate.
  - intros h c. discriminate.
  - intros h. eexists. reflexivity.
Qed.

Lemma flat_map_segments_length (rq : request) (segs : list nat) :
  length (flat_map (segment_commands rq) segs) = (8 * length segs)%nat.
Proof.
  induction segs as [| seg rest IH]; [reflexivity |].
  cbn [flat_map]. rewrite length_app, IH, segment_commands_length.
  cbn [length]. lia.
Qed.

(** X1. When one of the five read-backs at the head of [get_data] fails,
    the call raises that exception at once: the calls made are the queries
    up to and including the failing one, and no command has been written
    to the analyser. *)
Theorem get_data_unreadable_request (proc : option (ret_data -> ret_data))
        (I : instrument) (h h1 : list io) (e : exn) :
  read_request I h = (Raise e, h1) ->
  get_data proc I h = (Raise e, h1) /\
  exists k, (0 < k <= 5)%nat /\ h1 = h ++ firstn k request_queries.
Proof.
  intros Hrq. split.
  - unfold get_data. rewrite run_bind, Hrq. reflexivity.
  - destruct (read_request_run I h) as [(rq & H') | (e' & k & Hk & H')];
      rewrite H' in Hrq; [discriminate |].
    injection Hrq as _ <-. exists k. split; [exact Hk | reflexivity].
Qed.

Lemma get_data_unreadable_request_witness :
  let I := Mock.instrument Mock.rq_wide Mock.flat_trace (Some 2%nat) in
  get_data None I []
  = (Raise VisaIOError,
     [Ask SENS_FREQ_SPAN_q; Ask FREQ_STAR_q; Ask FREQ_STOP_q]).
Proof.
  intros I.
  apply (get_data_unreadable_request None I [] _ VisaIOError).
  vm_compute. reflexivity.
Defined.

(** X2. On an instrument that answers every call, and every trace read
    with a list of numbers, [get_data] returns for every request with at
    least one segment: it has then made the eight calls of each segment in
    turn and the three restoring writes, and nothing else. *)
Theorem get_data_returns_when_answered (proc : option (ret_data -> ret_data))
        (I : instrument) (h h1 : list io) (rq : request) :
  responsive I ->
  read_request I h = (Ok rq, h1) ->
  (0 < num_segments (span rq))%Z ->
  exists data,
    get_data proc I h = (Ok data, h1 ++ acquisition_script rq) /\
    length (acquisition_script rq)
    = (8 * Z.to_nat (num_segments (span rq)) + 3)%nat.
Proof.
  intros HI Hrq Hn.
  assert (Hlen : length (acquisition_script rq)
                 = (8 * Z.to_nat (num_segments (span rq)) + 3)%nat).
  { unfold acquisition_script, range.
    rewrite length_app, flat_map_segments_length, length_seq. reflexivity. }
  enough (exists data,
             get_data proc I h = (Ok data, h1 ++ acquisition_script rq))
    as (data & Hrun) by (exists data; split; [exact Hrun | exact Hlen]).
  clear Hlen.
  rewrite (get_data_after_request proc I h h1 rq Hrq).
  unfold stitch, acquisition_script, restore_commands.
  rewrite run_bind, (concatenate_freqs_run rq Hn), run_ret. cbv beta iota.
  rewrite run_bind.
  destruct (acquire_segments_returns rq (range (num_segments (span rq))) []
              I h1 HI) as (wfm_data & ->).
  cbv beta iota.
  assert (Hx : wfm_x_of rq <> []).
  { intros E. pose proof (wfm_x_length rq) as Hl. rewrite E in Hl.
    unfold sample_count in Hl. simpl in Hl. lia. }
  destruct (wfm_x_of rq) as [| x0 tl]; [congruence |]. clear Hx.
  destruct HI as (Hw & _ & _).
  rewrite run_bind. cbn [first_sample]. rewrite run_ret. cbv beta iota.
  rewrite run_bind_write. answered Hw.
  rewrite run_bind. unfold last_sample. rewrite run_ret. cbv beta iota.
  rewrite run_bind_write. answered Hw.
  rewrite run_bind_write. answered Hw.
  rewrite <- !app_assoc. destruct proc; eexists; reflexivity.
Qed.

Lemma get_data_returns_when_answered_witness :
  let I := Mock.instrument Mock.rq_wide Mock.flat_trace None in
  exists data,
    get_data None I []
    = (Ok data, request_queries ++ acquisition_script Mock.rq_wide) /\
    length (acquisition_script Mock.rq_wide) = 27%nat.
Proof.
  intros I.
  destruct (get_data_returns_when_answered None I [] request_queries
              Mock.rq_wide (mock_responsive _ _)
              (mock_read_request Mock.rq_wide))
    as (data & Hrun & Hlen); [vm_compute; reflexivity |].
  exists data. split; [exact Hrun | exact Hlen].
Defined.



(** ** Ramp rates *)

Lemma ramp_delay_neg (s r : Q) : 0 < s -> r < 0 -> s / r < 0.
Proof.
  intros Hs Hr.
  destruct (Qlt_le_dec (s / r) 0) as [H | H]; [exact H | exfalso].
  assert (Hsr : s / r * r == s)
    by (field; intros E; rewrite E in Hr; discriminate).
  assert (Hm : 0 * - r <= s / r * - r)
    by (apply Qmult_le_compat_r; [exact H | lra]).
  assert (Hn : s / r * - r == - s) by (rewrite <- Hsr at 2; ring).
  rewrite Hn in Hm. lra.
Qed.

Lemma true_div_neg (a b : Q) :
  b < 0 -> SPD4306X.true_div a b = Ok (a / b).
Proof.
  intros Hb. unfold SPD4306X.true_div.
  destruct (Qeq_bool b 0) eqn:E; [| reflexivity].
  apply Qeq_bool_eq in E. rewrite E in Hb. discriminate.
Qed.

Lemma true_div_zero (a b : Q) :
  b == 0 -> SPD4306X.true_div a b = Raise ZeroDivisionError.
Proof.
  intros Hb. unfold SPD4306X.true_div.
  apply Qeq_bool_iff in Hb. rewrite Hb. reflexivity.
Qed.



(** ** The switch box *)

Module DCBoxFacts.
Import String.
Import DCBox.
Local Open Scope box_scope.

Lemma box_run_bind {A B : Type} (m : S A) (k : A -> S B) (dev : serial)
      (h : list op) :
  (x <- m ;; k x) dev h =
  match m dev h with
  | (Return a, h') => k a dev h'
  | (Raise e, h') => (Raise e, h')
  end.
Proof. reflexivity. Qed.

Lemma bytes_single (x : Z) :
  bytes [x] = option_map (fun b => [b]) (byte_of_int x).
Proof. simpl. destruct (byte_of_int x); reflexivity. Qed.

(** A query whose byte exists goes reset, write, read, and stops at the
    first call that raises. *)
Lemma query_run (port : Z) (qb : Byte.byte) (dev : serial) (h : list op) :
  query_byte port = Some qb ->
  query [Z.lor 224 port] dev h =
  match dev h reset_input_buffer with
  | None => (Raise SerialException, h ++ [reset_input_buffer])
  | Some _ =>
      match dev (h ++ [reset_input_buffer]) (ser_write [qb]) with
      | None =>
          (Raise SerialException, h ++ [reset_input_buffer; ser_write [qb]])
      | Some _ =>
          match dev (h ++ [reset_input_buffer; ser_write [qb]]) (ser_read 1) with
          | None => (Raise SerialException, h ++ query_calls qb)
          | Some r => (Return (firstn 1 r), h ++ query_calls qb)
          end
      end
  end.
Proof.
  intros Hqb. unfold query, write, read, bind, call, ret, query_calls.
  rewrite bytes_single. unfold query_byte in Hqb. rewrite Hqb. cbn [option_map].
  destruct (dev h reset_input_buffer); [| reflexivity].
  rewrite <- ?app_assoc. cbn [app].
  destruct (dev (h ++ [reset_input_buffer]) (ser_write [qb])); [| reflexivity].
  rewrite <- ?app_assoc. cbn [app].
  destruct (dev (h ++ [reset_input_buffer; ser_write [qb]]) (ser_read 1));
    rewrite <- ?app_assoc; reflexivity.
Qed.

(** Without a query byte, [bytes] raises after the buffer was reset. *)
Lemma query_run_no_byte (port : Z) (dev : serial) (h : list op) :
  query_byte port = None ->
  exists e, query [Z.lor 224 port] dev h = (Raise e, h ++ [reset_input_buffer]).
Proof.
  intros Hqb. unfold query, write, read, bind, call, ret, raise.
  rewrite bytes_single. unfold query_byte in Hqb. rewrite Hqb. cbn [option_map].
  destruct (dev h reset_input_buffer); eexists; reflexivity.
Qed.

Lemma getitem_In (l : list String.string) (i : Z) (x : String.string) :
  getitem l i = Some x -> In x l.
Proof.
  unfold getitem. destruct (i <? 0)%Z; [destruct (i + _ <? 0)%Z |];
    try discriminate; apply nth_error_In.
Qed.

Lemma getitem_nat (l : list String.string) (i : nat) :
  getitem l (Z.of_nat i) = nth_error l i.
Proof.
  unfold getitem. destruct (Z.ltb_spec (Z.of_nat i) 0) as [Hneg | _]; [lia |].
  rewrite Nat2Z.id. reflexivity.
Qed.

Lemma accept_known (port v : Z) (state : String.string) :
  accept port v = Some state -> In state lestates.
Proof.
  unfold accept. destruct (Z.land v 31 =? port)%Z; [| discriminate].
  destruct (Z.shiftr v 5 <? Z.of_nat (List.length lestates))%Z; [| discriminate].
  apply getitem_In.
Qed.

Lemma accept_port_range (port v : Z) (state : String.string) :
  accept port v = Some state -> (0 <= port < 32)%Z.
Proof.
  unfold accept. destruct (Z.eqb_spec (Z.land v 31) port) as [<- | _];
    [| discriminate].
  intros _. change 31%Z with (Z.ones 5). rewrite Z.land_ones by lia.
  apply Z.mod_pos_bound. reflexivity.
Qed.

(** One guarded query: it never raises, makes one buffer reset, and
    whatever it sends is the query byte of the port. *)
Lemma try_query_outcome (port : Z) (dev : serial) (h : list op) :
  exists r calls,
    try_pass (query [Z.lor 224 port]) dev h = (Return r, h ++ calls) /\
    Forall (is_query_call port) calls /\
    List.length (filter is_reset calls) = 1%nat /\
    (forall reply, r = Some reply ->
       exists answer,
         dev (h ++ removelast calls) (ser_read 1) = Some answer /\
         reply = firstn 1 answer).
Proof.
  unfold try_pass. destruct (query_byte port) as [qb |] eqn:Hqb.
  - rewrite (query_run port qb dev h Hqb).
    assert (Hw : is_query_call port (ser_write [qb])) by (exists qb; auto).
    destruct (dev h reset_input_buffer).
    2: { exists None, [reset_input_buffer]. repeat split; try discriminate.
         repeat constructor. }
    destruct (dev (h ++ [reset_input_buffer]) (ser_write [qb])).
    2: { exists None, [reset_input_buffer; ser_write [qb]].
         repeat split; try discriminate. repeat constructor; assumption. }
    destruct (dev (h ++ [reset_input_buffer; ser_write [qb]]) (ser_read 1))
      as [answer |] eqn:Hread.
    2: { exists None, (query_calls qb). repeat split; try discriminate.
         repeat constructor; assumption. }
    exists (Some (firstn 1 answer)), (query_calls qb).
    repeat split; [repeat constructor; assumption |].
    intros reply E. injection E as <-. exists answer. split; [| reflexivity].
    exact Hread.
  - destruct (query_run_no_byte port dev h Hqb) as (e & ->).
    exists None, [reset_input_buffer]. repeat split; try discriminate.
    repeat constructor.
Qed.

(** *** The layout of a byte: state in the three high bits, port in the
    five low bits *)

Lemma byte_layout (state port : Z) :
  (0 <= state)%Z -> (0 <= port < 32)%Z ->
  Z.land (Z.lor (Z.shiftl state 5) port) 31 = port /\
  Z.shiftr (Z.lor (Z.shiftl state 5) port) 5 = state /\
  Z.lor (Z.shiftl state 5) port = (32 * state + port)%Z.
Proof.
  intros Hs Hp.
  assert (Hlow : Z.land (Z.lor (Z.shiftl state 5) port) 31 = port).
  { rewrite Z.land_lor_distr_l. change 31%Z with (Z.ones 5).
    rewrite !Z.land_ones by lia. rewrite Z.shiftl_mul_pow2 by lia.
    rewrite Z.mod_mul by (cbv; discriminate).
    rewrite Z.mod_small by (change (2 ^ 5)%Z with 32%Z; lia). reflexivity. }
  assert (Hhigh : Z.shiftr (Z.lor (Z.shiftl state 5) port) 5 = state).
  { rewrite Z.shiftr_lor, Z.shiftr_shiftl_l by lia.
    rewrite Z.sub_diag, Z.shiftl_0_r, (Z.shiftr_div_pow2 port) by lia.
    rewrite Z.div_small by (change (2 ^ 5)%Z with 32%Z; lia).
    apply Z.lor_0_r. }
  split; [exact Hlow |]. split; [exact Hhigh |].
  set (msg := Z.lor (Z.shiftl state 5) port) in *.
  rewrite (Z.div_mod msg 32) by lia.
  change 31%Z with (Z.ones 5) in Hlow. rewrite Z.land_ones in Hlow by lia.
  change (2 ^ 5)%Z with 32%Z in Hlow. rewrite Hlow.
  rewrite Z.shiftr_div_pow2 in Hhigh by lia.
  change (2 ^ 5)%Z with 32%Z in Hhigh. rewrite Hhigh. reflexivity.
Qed.

Lemma byte_of_int_small (x : Z) :
  (0 <= x < 256)%Z ->
  exists b, byte_of_int x = Some b /\ int_of_byte b = x.
Proof.
  intros Hx. unfold byte_of_int, int_of_byte.
  destruct (Z.ltb_spec x 0) as [Hneg | _]; [lia |].
  destruct (Byte.of_N (Z.to_N x)) as [b |] eqn:E.
  - exists b. split; [reflexivity |].
    apply Byte.to_of_N in E. rewrite E. lia.
  - apply Byte.of_N_None_iff in E. lia.
Qed.

Lemma byte_of_int_large (x : Z) :
  (x < 0 \/ 256 <= x)%Z -> byte_of_int x = None.
Proof.
  intros Hx. unfold byte_of_int.
  destruct (Z.ltb_spec x 0) as [_ | Hge]; [reflexivity |].
  apply Byte.of_N_None_iff. lia.
Qed.

Lemma index_In (x : String.string) (l : list String.string) :
  In x l -> exists i, index x l = Some i /\ nth_error l i = Some x.
Proof.
  induction l as [| y rest IH]; intros Hin; [contradiction |].
  simpl. destruct (String.eqb_spec y x) as [-> | Hne].
  - exists 0%nat. split; reflexivity.
  - destruct Hin as [E | Hin]; [contradiction |].
    destruct (IH Hin) as (i & -> & Hnth). exists (Datatypes.S i).
    split; [reflexivity | exact Hnth].
Qed.

Lemma index_not_In (x : String.string) (l : list String.string) :
  ~ In x l -> index x l = None.
Proof.
  induction l as [| y rest IH]; intros Hnot; [reflexivity |].
  simpl. destruct (String.eqb_spec y x) as [-> | Hne].
  - exfalso. apply Hnot. left. reflexivity.
  - rewrite IH; [reflexivity |]. intros Hin. apply Hnot. right. exact Hin.
Qed.

Lemma index_bound (x : String.string) (l : list String.string) (i : nat) :
  index x l = Some i -> (i < List.length l)%nat.
Proof.
  revert i. induction l as [| y rest IH]; intros i; [discriminate |].
  simpl. destruct (String.eqb y x).
  - intros E. injection E as <-. lia.
  - destruct (index x rest) as [j |]; [| discriminate].
    intros E. injection E as <-. specialize (IH j eq_refl). lia.
Qed.

(** The byte that moves a port to a state is read back, as a reply, as
    that state of that port. *)
Lemma accept_position_byte (port : Z) (state : nat) :
  (0 <= port < 32)%Z -> (state < List.length lestates)%nat ->
  exists b,
    position_byte state port = Some b /\
    int_of_byte b = (32 * Z.of_nat state + port)%Z /\
    accept port (int_of_byte b) = nth_error lestates state.
Proof.
  intros Hp Hs. unfold position_byte.
  destruct (byte_layout (Z.of_nat state) port ltac:(lia) Hp)
    as (Hlow & Hhigh & Hsum).
  change (List.length lestates) with 5%nat in Hs.
  destruct (byte_of_int_small (Z.lor (Z.shiftl (Z.of_nat state) 5) port))
    as (b & Hb & Hval); [lia |].
  exists b. split; [exact Hb |]. split; [lia |].
  unfold accept. rewrite Hval, Hlow, Hhigh, Z.eqb_refl.
  destruct (Z.ltb_spec (Z.of_nat state) (Z.of_nat (List.length lestates)))
    as [_ | Hge]; [| change (List.length lestates) with 5%nat in Hge; lia].
  apply getitem_nat.
Qed.

Lemma query_byte_small (port : Z) :
  (0 <= port < 32)%Z ->
  exists qb, query_byte port = Some qb /\ int_of_byte qb = (224 + port)%Z.
Proof.
  intros Hp. unfold query_byte.
  destruct (byte_layout 7 port ltac:(lia) Hp) as (_ & _ & Hsum).
  change (Z.shiftl 7 5) with 224%Z in Hsum.
  destruct (byte_of_int_small (Z.lor 224 port)) as (qb & Hqb & Hval); [lia |].
  exists qb. split; [exact Hqb | lia].
Qed.

Lemma set_Position_not_known (port : Z) (pos : String.string)
      (dev : serial) (h : list op) :
  ~ In pos lestates ->
  set_Position port pos dev h = (Raise ValueError, h).
Proof.
  intros Hnot. unfold set_Position. rewrite (index_not_In _ _ Hnot).
  reflexivity.
Qed.

(** *** [get_state] *)

Lemma get_state_loop_step (tries : nat) (port : Z) (dev : serial) (h : list op) :
  exists r calls,
    try_pass (query [Z.lor 224 port]) dev h = (Return r, h ++ calls) /\
    Forall (is_query_call port) calls /\
    List.length (filter is_reset calls) = 1%nat /\
    (forall reply, r = Some reply ->
       exists answer,
         dev (h ++ removelast calls) (ser_read 1) = Some answer /\
         reply = firstn 1 answer) /\
    get_state_loop (Datatypes.S tries) port dev h =
    match r with
    | Some reply =>
        match accept port (int_from_bytes reply) with
        | Some state => (Return state, h ++ calls)
        | None => get_state_loop tries port dev (h ++ calls)
        end
    | None => get_state_loop tries port dev (h ++ calls)
    end.
Proof.
  destruct (try_query_outcome port dev h) as (r & calls & Hrun & Hq & Hres & Hrep).
  exists r, calls. repeat split; try assumption.
  cbn [get_state_loop]. rewrite box_run_bind, Hrun.
  destruct r as [reply |]; [| reflexivity].
  destruct (accept port (int_from_bytes reply)); reflexivity.
Qed.

(** The loop gives up with [AssertionError] after exactly [tries] queries,
    or returns a known state after at most that many; all it sends is the
    query byte. *)
Lemma get_state_loop_outcome (tries : nat) (port : Z) (dev : serial) :
  forall h,
  exists calls,
    snd (get_state_loop tries port dev h) = h ++ calls /\
    Forall (is_query_call port) calls /\
    match fst (get_state_loop tries port dev h) with
    | Return state =>
        In state lestates /\ (0 <= port < 32)%Z /\
        (1 <= List.length (filter is_reset calls) <= tries)%nat
    | Raise e =>
        e = AssertionError /\ List.length (filter is_reset calls) = tries
    end.
Proof.
  induction tries as [| tries IH]; intros h.
  - exists []. rewrite app_nil_r. repeat split. constructor.
  - destruct (get_state_loop_step tries port dev h)
      as (r & calls1 & _ & Hq1 & Hres1 & _ & ->).
    assert (Hrec : exists calls,
               snd (get_state_loop tries port dev (h ++ calls1)) = h ++ calls /\
               Forall (is_query_call port) calls /\
               match fst (get_state_loop tries port dev (h ++ calls1)) with
               | Return state =>
                   In state lestates /\ (0 <= port < 32)%Z /\
                   (1 <= List.length (filter is_reset calls)
                    <= Datatypes.S tries)%nat
               | Raise e =>
                   e = AssertionError /\
                   List.length (filter is_reset calls) = Datatypes.S tries
               end).
    { destruct (IH (h ++ calls1)) as (calls2 & Hlog & Hq2 & Hout).
      exists (calls1 ++ calls2). rewrite Hlog, app_assoc.
      split; [reflexivity |]. split; [apply Forall_app; split; assumption |].
      rewrite filter_app, length_app, Hres1.
      destruct (fst (get_state_loop tries port dev (h ++ calls1))).
      - destruct Hout as (Hin & Hp & Hn). repeat split; try assumption; lia.
      - destruct Hout as (He & Hn). split; [exact He | lia]. }
    destruct r as [reply |]; [| exact Hrec].
    destruct (accept port (int_from_bytes reply)) as [state |] eqn:Hacc;
      [| exact Hrec].
    exists calls1. cbn [fst snd]. split; [reflexivity |].
    split; [exact Hq1 |]. split; [apply (accept_known _ _ _ Hacc) |].
    split; [apply (accept_port_range _ _ _ Hacc) | lia].
Qed.

Lemma get_state_run_outcome (port : Z) (dev : serial) (h : list op) :
  exists calls,
    snd (get_state port dev h) = h ++ calls /\
    Forall (is_query_call port) calls /\
    match fst (get_state port dev h) with
    | Return state =>
        In state lestates /\ (0 <= port < 32)%Z /\
        (1 <= List.length (filter is_reset calls) <= 100)%nat
    | Raise e =>
        e = AssertionError /\ List.length (filter is_reset calls) = 100%nat
    end.
Proof. exact (get_state_loop_outcome 100 port dev h). Qed.

(** A port whose replies are never accepted ends in [AssertionError]. *)
Lemma get_state_loop_rejecting (tries : nat) (port : Z) (dev : serial) :
  (forall h answer,
      dev h (ser_read 1) = Some answer ->
      accept port (int_from_bytes (firstn 1 answer)) = None) ->
  forall h, fst (get_state_loop tries port dev h) = Raise AssertionError.
Proof.
  intros Hrej. induction tries as [| tries IH]; intros h; [reflexivity |].
  destruct (get_state_loop_step tries port dev h)
    as (r & calls & _ & _ & _ & Hrep & ->).
  destruct r as [reply |]; [| apply IH].
  destruct (Hrep reply eq_refl) as (answer & Hans & ->).
  rewrite (Hrej _ _ Hans). apply IH.
Qed.

(** A first query that goes through with an accepted reply ends the
    loop. *)
Lemma get_state_loop_first_reply (tries : nat) (port : Z) (qb : Byte.byte)
      (dev : serial) (h : list op) (answer : list Byte.byte)
      (state : String.string) :
  query_byte port = Some qb ->
  dev h reset_input_buffer <> None ->
  dev (h ++ [reset_input_buffer]) (ser_write [qb]) <> None ->
  dev (h ++ [reset_input_buffer; ser_write [qb]]) (ser_read 1) = Some answer ->
  accept port (int_from_bytes (firstn 1 answer)) = Some state ->
  get_state_loop (Datatypes.S tries) port dev h
  = (Return state, h ++ query_calls qb).
Proof.
  intros Hqb Hreset Hwrite Hread Hacc.
  cbn [get_state_loop]. rewrite box_run_bind. unfold try_pass.
  rewrite (query_run port qb dev h Hqb).
  destruct (dev h reset_input_buffer); [| congruence].
  destruct (dev (h ++ [reset_input_buffer]) (ser_write [qb])); [| congruence].
  rewrite Hread, Hacc. reflexivity.
Qed.

(** X5. [get_state] either returns one of the five state names, after 1
    to 100 queries, or raises [AssertionError] after exactly 100 queries;
    no other exception leaves it, and all it writes is the query byte of
    its port. *)
Theorem get_state_outcome (port : Z) (dev : serial) (h : list op) :
  exists calls,
    snd (get_state port dev h) = h ++ calls /\
    Forall (is_query_call port) calls /\
    match fst (get_state port dev h) with
    | Return state =>
        In state lestates /\
        (1 <= List.length (filter is_reset calls) <= 100)%nat
    | Raise e =>
        e = AssertionError /\ List.length (filter is_reset calls) = 100%nat
    end.
Proof.
  destruct (get_state_loop_outcome 100 port dev h) as (calls & Hlog & Hq & Hout).
  exists calls. split; [exact Hlog |]. split; [exact Hq |].
  unfold get_state. destruct (fst (get_state_loop 100 port dev h)).
  - destruct Hout as (Hin & _ & Hn). split; assumption.
  - exact Hout.
Qed.

(** X6. A port numbered 32 or more (or below 0) can never be read:
    whatever the box answers, [get_state] raises [AssertionError]. *)
Theorem get_state_unreadable_port (port : Z) (dev : serial) (h : list op) :
  (port < 0 \/ 32 <= port)%Z ->
  fst (get_state port dev h) = Raise AssertionError.
Proof.
  intros Hp. apply get_state_loop_rejecting. intros h' answer _.
  destruct (accept port (int_from_bytes (firstn 1 answer))) eqn:Hacc;
    [| reflexivity].
  apply accept_port_range in Hacc. lia.
Qed.

Lemma get_state_unreadable_port_witness :
  fst (get_state 32 (stuck_box [Byte.x20]) []) = Raise AssertionError.
Proof. apply get_state_unreadable_port. right. lia. Defined.

(** X7. For a port below 32 and a known state name, the [Position] setter
    sends one byte and nothing else; when the box gives that byte as the
    answer to the next query, [get_state] returns the name after that one
    query; and no other port accepts the byte as its own reply. *)
Theorem Position_round_trip (port : Z) (pos : String.string) :
  (0 <= port < 32)%Z ->
  In pos lestates ->
  exists qb b,
    query_byte port = Some qb /\
    (forall dev h, set_Position port pos dev h
                   = (match dev h (ser_write [b]) with
                      | Some _ => Return tt
                      | None => Raise SerialException
                      end, h ++ [ser_write [b]])) /\
    (forall dev h,
        dev h reset_input_buffer <> None ->
        dev (h ++ [reset_input_buffer]) (ser_write [qb]) <> None ->
        dev (h ++ [reset_input_buffer; ser_write [qb]]) (ser_read 1)
        = Some [b] ->
        get_state port dev h = (Return pos, h ++ query_calls qb)) /\
    (forall other, other <> port -> accept other (int_of_byte b) = None).
Proof.
  intros Hp Hin.
  destruct (index_In pos lestates Hin) as (state & Hidx & Hnth).
  pose proof (index_bound _ _ _ Hidx) as Hs.
  destruct (accept_position_byte port state Hp Hs) as (b & Hb & Hval & Hacc).
  destruct (query_byte_small port Hp) as (qb & Hqb & _).
  exists qb, b. split; [exact Hqb |]. split; [| split].
  - intros dev h. unfold set_Position. rewrite Hidx. cbv zeta.
    unfold write. rewrite bytes_single. unfold position_byte in Hb.
    rewrite Hb. cbn [option_map]. unfold bind, call, ret.
    destruct (dev h (ser_write [b])); reflexivity.
  - intros dev h Hreset Hwrite Hread. unfold get_state.
    apply (get_state_loop_first_reply 99 port qb dev h [b]); try assumption.
    cbn [firstn int_from_bytes fold_left]. rewrite Z.mul_0_l, Z.add_0_l.
    rewrite Hacc. exact Hnth.
  - intros other Hother. unfold accept.
    destruct (Z.eqb_spec (Z.land (int_of_byte b) 31) other) as [E | _];
      [| reflexivity].
    exfalso. apply Hother. rewrite <- E, Hval.
    destruct (byte_layout (Z.of_nat state) port ltac:(lia) Hp) as (Hlow & _ & Hsum).
    rewrite <- Hsum. exact Hlow.
Qed.

Lemma Position_round_trip_witness :
  exists qb b,
    query_byte 2 = Some qb /\
    get_state 2 (stuck_box [b]) [] = (Return "Pforce"%string, query_calls qb).
Proof.
  destruct (Position_round_trip 2 "Pforce"%string)
    as (qb & b & Hqb & _ & Hget & _); [lia | simpl; auto |].
  exists qb, b. split; [exact Hqb |].
  apply Hget; [discriminate | discriminate | reflexivity].
Defined.

(** X8. The [Position] setter either raises [ValueError] with nothing
    written, when the name is not one of the five states or when
    [(index << 5) | port] is not the value of a byte, or it writes exactly
    that one byte; it then returns unless the serial port raises. *)
Theorem set_Position_outcome (port : Z) (pos : String.string)
        (dev : serial) (h : list op) :
  (~ In pos lestates -> set_Position port pos dev h = (Raise ValueError, h)) /\
  (forall state,
      index pos lestates = Some state ->
      let msg := Z.lor (Z.shiftl (Z.of_nat state) 5) port in
      ((msg < 0 \/ 256 <= msg)%Z ->
       set_Position port pos dev h = (Raise ValueError, h)) /\
      ((0 <= msg < 256)%Z ->
       exists b,
         int_of_byte b = msg /\
         set_Position port pos dev h
         = (match dev h (ser_write [b]) with
            | Some _ => Return tt
            | None => Raise SerialException
            end, h ++ [ser_write [b]]))).
Proof.
  split; [apply set_Position_not_known |].
  intros state Hidx msg. unfold set_Position. rewrite Hidx. cbv zeta.
  fold msg. unfold write. rewrite bytes_single. split.
  - intros Hout. rewrite (byte_of_int_large msg Hout). reflexivity.
  - intros Hin. destruct (byte_of_int_small msg Hin) as (b & Hb & Hval).
    exists b. split; [exact Hval |]. rewrite Hb. cbn [option_map].
    unfold bind, call, ret. destruct (dev h (ser_write [b])); reflexivity.
Qed.

Lemma set_Position_outcome_witness :
  set_Position 3 "Pfloat"%string (stuck_box []) [] = (Raise ValueError, []) /\
  set_Position 300 "Psense"%string (stuck_box []) [] = (Raise ValueError, []) /\
  set_Position 3 "Pbnc"%string (stuck_box []) []
  = (Return tt, [ser_write [Byte.x63]]).
Proof.
  split; [| split].
  - apply (proj1 (set_Position_outcome 3 "Pfloat"%string (stuck_box []) [])).
    simpl. intros [E | [E | [E | [E | [E | []]]]]]; discriminate.
  - apply (proj2 (set_Position_outcome 300 "Psense"%string (stuck_box []) [])
             0%nat eq_refl).
    right. vm_compute. discriminate.
  - destruct (proj2 (set_Position_outcome 3 "Pbnc"%string (stuck_box []) [])
                3%nat eq_refl) as (_ & Hin).
    destruct Hin as (b & Hval & Hrun);
      [vm_compute; split; [discriminate | reflexivity] |].
    assert (Hb : b = Byte.x63).
    { apply (f_equal Z.to_N) in Hval. unfold int_of_byte in Hval.
      rewrite N2Z.id in Hval. pose proof (Byte.of_to_N b) as Hof.
      rewrite Hval in Hof. vm_compute in Hof. congruence. }
    rewrite Hb in Hrun. exact Hrun.
Defined.

(** X9. For port 0 a read that times out counts as a reply: when the
    first query goes through and the read comes back empty, [get_state]
    returns [Psense]. *)
Theorem get_state_timeout_port_0 (dev : serial) (h : list op) :
  dev h reset_input_buffer <> None ->
  dev (h ++ [reset_input_buffer]) (ser_write [Byte.xe0]) <> None ->
  dev (h ++ [reset_input_buffer; ser_write [Byte.xe0]]) (ser_read 1) = Some [] ->
  get_state 0 dev h = (Return "Psense"%string, h ++ query_calls Byte.xe0).
Proof.
  intros Hreset Hwrite Hread. unfold get_state.
  apply (get_state_loop_first_reply 99 0 Byte.xe0 dev h []);
    try assumption; reflexivity.
Qed.

Lemma get_state_timeout_port_0_witness :
  get_state 0 (stuck_box []) []
  = (Return "Psense"%string, query_calls Byte.xe0).
Proof.
  apply (get_state_timeout_port_0 (stuck_box []) []);
    [discriminate | discriminate | reflexivity].
Defined.

(** X10. For every other port a box whose reads all time out is never
    taken to have answered: [get_state] raises [AssertionError]. *)
Theorem get_state_silent_box (port : Z) (dev : serial) (h : list op) :
  port <> 0%Z ->
  (forall h' answer, dev h' (ser_read 1) = Some answer -> answer = []) ->
  fst (get_state port dev h) = Raise AssertionError.
Proof.
  intros Hp Hsilent. apply get_state_loop_rejecting.
  intros h' answer Hans. rewrite (Hsilent _ _ Hans).
  unfold accept. cbn [firstn int_from_bytes fold_left].
  change (Z.land 0 31) with 0%Z.
  destruct (Z.eqb_spec 0 port) as [E | _]; [congruence | reflexivity].
Qed.

Lemma get_state_silent_box_witness :
  fst (get_state 5 (stuck_box []) []) = Raise AssertionError.
Proof.
  apply get_state_silent_box; [discriminate |].
  intros h' answer E. injection E as <-. reflexivity.
Defined.

(** *** [set_ports_to_default] *)

Lemma run_getattr {A : Type} (ports : list String.string) (name : String.string)
      (m : nat) (k : Z -> S A) (dev : serial) (h : list op) :
  index name ports = Some m ->
  (port_obj <- getattr ports name ;; k port_obj) dev h = k (Z.of_nat m) dev h.
Proof. intros E. unfold bind, getattr. rewrite E. reflexivity. Qed.

Lemma query_call_default (state : nat) (port : Z) (c : op) :
  (0 <= port < 16)%Z -> is_query_call port c -> is_default_call state c.
Proof.
  intros Hp. destruct c as [| data | size]; simpl; try tauto.
  intros (qb & Hqb & ->). exists port, qb. tauto.
Qed.

Lemma query_call_not_position (port : Z) (calls : list op) :
  (0 <= port < 16)%Z -> Forall (is_query_call port) calls ->
  filter is_position_write calls = [].
Proof.
  intros Hp. induction 1 as [| c calls Hc _ IH]; [reflexivity |].
  simpl. rewrite IH. destruct c as [| data | size]; try reflexivity.
  destruct Hc as (qb & Hqb & ->). simpl.
  destruct (query_byte_small port ltac:(lia)) as (qb' & Hqb' & Hval).
  rewrite Hqb in Hqb'. injection Hqb' as <-. rewrite Hval.
  destruct (Z.ltb_spec (224 + port) 160); [lia | reflexivity].
Qed.

(** Whatever the box does, the loop only queries the ports it visits and
    writes them the position byte of the default state, at most once
    each. *)
Lemma set_ports_traffic (ports : list String.string)
      (default_pos : String.string) (state : nat) (dev : serial)
      (numbers : list nat) :
  index default_pos lestates = Some state ->
  Forall (fun i => exists m, index (port_name i) ports = Some m /\ (m < 16)%nat)
         numbers ->
  forall h,
  exists calls,
    snd (set_ports ports default_pos numbers dev h) = h ++ calls /\
    Forall (is_default_call state) calls /\
    (List.length (filter is_position_write calls) <= List.length numbers)%nat.
Proof.
  intros Hidx Hports. pose proof (index_bound _ _ _ Hidx) as Hs.
  induction Hports as [| i numbers (m & Hm & Hm16) _ IH]; intros h.
  - exists []. rewrite app_nil_r. repeat split; [constructor | simpl; lia].
  - cbn [set_ports]. rewrite (run_getattr _ _ m _ _ _ Hm).
    assert (Hp : (0 <= Z.of_nat m < 16)%Z) by lia.
    rewrite box_run_bind. unfold Position, get_state.
    destruct (get_state_loop_outcome 100 (Z.of_nat m) dev h)
      as (calls1 & Hlog1 & Hq1 & _).
    pose proof (query_call_not_position _ _ Hp Hq1) as Hnone1.
    assert (Hd1 : Forall (is_default_call state) calls1).
    { eapply Forall_impl; [| exact Hq1].
      intros c. apply query_call_default. exact Hp. }
    destruct (get_state_loop 100 (Z.of_nat m) dev h) as [[cur | e] log1];
      cbn [snd] in Hlog1; subst log1.
    2: { exists calls1. cbn [snd]. split; [reflexivity |]. split; [exact Hd1 |].
         rewrite Hnone1. simpl. lia. }
    rewrite box_run_bind.
    destruct (negb (String.eqb cur default_pos)).
    + unfold set_Position. rewrite Hidx. cbv zeta. unfold write.
      rewrite bytes_single.
      destruct (accept_position_byte (Z.of_nat m) state ltac:(lia) Hs)
        as (b & Hb & Hval & _).
      unfold position_byte in Hb. rewrite Hb. cbn [option_map].
      assert (Hb' : position_byte state (Z.of_nat m) = Some b) by exact Hb.
      assert (Hdw : is_default_call state (ser_write [b])).
      { exists (Z.of_nat m), b. tauto. }
      unfold bind, call, ret.
      destruct (dev (h ++ calls1) (ser_write [b])).
      * destruct (IH ((h ++ calls1) ++ [ser_write [b]])) as (calls2 & Hlog2 & Hd2 & Hn2).
        exists (calls1 ++ ser_write [b] :: calls2). rewrite Hlog2.
        split; [rewrite <- !app_assoc; reflexivity |]. split.
        -- apply Forall_app. split; [exact Hd1 |]. constructor; assumption.
        -- rewrite filter_app, Hnone1. cbn [app filter is_position_write].
           destruct (int_of_byte b <? 160)%Z; simpl; lia.
      * exists (calls1 ++ [ser_write [b]]). cbn [snd].
        split; [rewrite <- !app_assoc; reflexivity |]. split.
        -- apply Forall_app. split; [exact Hd1 |]. constructor; [assumption | constructor].
        -- rewrite filter_app, Hnone1. cbn [app filter is_position_write].
           destruct (int_of_byte b <? 160)%Z; simpl; lia.
    + unfold ret.
      destruct (IH (h ++ calls1)) as (calls2 & Hlog2 & Hd2 & Hn2).
      exists (calls1 ++ calls2). rewrite Hlog2.
      split; [rewrite <- !app_assoc; reflexivity |]. split.
      * apply Forall_app. split; assumption.
      * rewrite filter_app, Hnone1. simpl. lia.
Qed.

Lemma default_ports_first : index (port_name 1) default_ports = Some 0%nat.
Proof. vm_compute. reflexivity. Qed.

(** One round of the loop. *)
Lemma set_ports_step (ports : list String.string) (default_pos : String.string)
      (i : nat) (rest : list nat) (m : nat) (dev : serial) (h : list op) :
  index (port_name i) ports = Some m ->
  set_ports ports default_pos (i :: rest) dev h =
  match get_state (Z.of_nat m) dev h with
  | (Return cur, h1) =>
      if negb (String.eqb cur default_pos)
      then match set_Position (Z.of_nat m) default_pos dev h1 with
           | (Return _, h2) => set_ports ports default_pos rest dev h2
           | (Raise e, h2) => (Raise e, h2)
           end
      else set_ports ports default_pos rest dev h1
  | (Raise e, h1) => (Raise e, h1)
  end.
Proof.
  intros Hm. cbn [set_ports]. rewrite (run_getattr _ _ m _ _ _ Hm).
  rewrite box_run_bind. unfold Position.
  destruct (get_state (Z.of_nat m) dev h) as [[cur | e] h1]; [| reflexivity].
  rewrite box_run_bind.
  destruct (negb (String.eqb cur default_pos)); [| reflexivity].
  destruct (set_Position (Z.of_nat m) default_pos dev h1) as [[[] | e] h2];
    reflexivity.
Qed.

(** A default that is no state name stops the loop at its first port. *)
Lemma set_ports_unknown_default (ports : list String.string)
      (default_pos : String.string) (i : nat) (rest : list nat) (m : nat)
      (dev : serial) (h : list op) :
  index (port_name i) ports = Some m ->
  ~ In default_pos lestates ->
  exists e calls,
    set_ports ports default_pos (i :: rest) dev h = (Raise e, h ++ calls) /\
    (e = ValueError \/ e = AssertionError) /\
    Forall (is_query_call (Z.of_nat m)) calls.
Proof.
  intros Hm Hnot. rewrite (set_ports_step _ _ _ _ m _ _ Hm).
  destruct (get_state_run_outcome (Z.of_nat m) dev h)
    as (calls & Hlog & Hq & Hout).
  destruct (get_state (Z.of_nat m) dev h) as [[cur | e] log];
    cbn [fst snd] in Hlog, Hout; subst log.
  - destruct Hout as (Hin & _).
    destruct (String.eqb_spec cur default_pos) as [E | _];
      [subst cur; contradiction |].
    cbn [negb]. rewrite (set_Position_not_known _ _ _ _ Hnot).
    exists ValueError, calls. repeat split; [left; reflexivity | exact Hq].
  - destruct Hout as (-> & _).
    exists AssertionError, calls. repeat split; [right; reflexivity | exact Hq].
Qed.

Lemma default_ports_known :
  Forall (fun i => exists m,
              index (port_name i) default_ports = Some m /\ (m < 16)%nat)
         (seq 1 16).
Proof.
  repeat constructor; eexists; (split; [vm_compute; reflexivity | lia]).
Qed.

Lemma set_ports_in_place (ports : list String.string)
      (default_pos : String.string) (state : nat) (dev : serial) :
  index default_pos lestates = Some state ->
  rests_at dev state ->
  forall numbers qbs,
    Forall2 (fun i qb => exists m,
                 index (port_name i) ports = Some m /\ (m < 16)%nat /\
                 query_byte (Z.of_nat m) = Some qb) numbers qbs ->
    forall h,
      set_ports ports default_pos numbers dev h
      = (Return tt, h ++ flat_map query_calls qbs).
Proof.
  intros Hidx Hrest numbers qbs Hall.
  pose proof (index_bound _ _ _ Hidx) as Hs.
  assert (Hnth : nth_error lestates state = Some default_pos).
  { clear - Hidx. revert state Hidx.
    induction lestates as [| y rest IH]; intros state; [discriminate |].
    simpl. destruct (String.eqb_spec y default_pos) as [-> | _].
    - intros E. injection E as <-. reflexivity.
    - destruct (index default_pos rest) as [j |]; [| discriminate].
      intros E. injection E as <-. apply IH. reflexivity. }
  induction Hall as [| i qb numbers qbs (m & Hm & Hm16 & Hqb) _ IH]; intros h.
  - simpl. rewrite app_nil_r. reflexivity.
  - cbn [set_ports flat_map]. rewrite (run_getattr _ _ m _ _ _ Hm).
    rewrite box_run_bind. unfold Position, get_state.
    destruct (accept_position_byte (Z.of_nat m) state ltac:(lia) Hs)
      as (b & Hb & _ & Hacc).
    destruct (Hrest h (Z.of_nat m) qb b ltac:(lia) Hqb Hb) as (Hreset & _ & _).
    destruct (Hrest (h ++ [reset_input_buffer]) (Z.of_nat m) qb b ltac:(lia) Hqb Hb)
      as (_ & Hwrite & Hread).
    rewrite <- app_assoc in Hread. cbn [app] in Hread.
    rewrite (get_state_loop_first_reply 99 (Z.of_nat m) qb dev h [b] default_pos
               Hqb Hreset Hwrite Hread).
    2: { cbn [firstn int_from_bytes fold_left]. rewrite Z.mul_0_l, Z.add_0_l.
         rewrite Hacc. exact Hnth. }
    rewrite box_run_bind, String.eqb_refl. cbn [negb]. unfold ret at 1.
    rewrite IH, <- app_assoc. reflexivity.
Qed.

Lemma default_ports_queries :
  Forall2 (fun i qb => exists m,
               index (port_name i) default_ports = Some m /\ (m < 16)%nat /\
               query_byte (Z.of_nat m) = Some qb)
          (seq 1 16)
          [Byte.xe0; Byte.xe1; Byte.xe2; Byte.xe3; Byte.xe4; Byte.xe5;
           Byte.xe6; Byte.xe7; Byte.xe8; Byte.xed; Byte.xee; Byte.xef;
           Byte.xe9; Byte.xea; Byte.xeb; Byte.xec].
Proof.
  assert (Hone : forall i m qb,
             index (port_name i) default_ports = Some m ->
             (m <? 16)%nat = true ->
             query_byte (Z.of_nat m) = Some qb ->
             exists m, index (port_name i) default_ports = Some m /\
                       (m < 16)%nat /\ query_byte (Z.of_nat m) = Some qb).
  { intros i m qb Hi Hm Hqb. exists m. apply Nat.ltb_lt in Hm. auto. }
  cbn [seq].
  apply Forall2_cons; [apply (Hone _ 0%nat); vm_compute; reflexivity |].
  apply Forall2_cons; [apply (Hone _ 1%nat); vm_compute; reflexivity |].
  apply Forall2_cons; [apply (Hone _ 2%nat); vm_compute; reflexivity |].
  apply Forall2_cons; [apply (Hone _ 3%nat); vm_compute; reflexivity |].
  apply Forall2_cons; [apply (Hone _ 4%nat); vm_compute; reflexivity |].
  apply Forall2_cons; [apply (Hone _ 5%nat); vm_compute; reflexivity |].
  apply Forall2_cons; [apply (Hone _ 6%nat); vm_compute; reflexivity |].
  apply Forall2_cons; [apply (Hone _ 7%nat); vm_compute; reflexivity |].
  apply Forall2_cons; [apply (Hone _ 8%nat); vm_compute; reflexivity |].
  apply Forall2_cons; [apply (Hone _ 13%nat); vm_compute; reflexivity |].
  apply Forall2_cons; [apply (Hone _ 14%nat); vm_compute; reflexivity |].
  apply Forall2_cons; [apply (Hone _ 15%nat); vm_compute; reflexivity |].
  apply Forall2_cons; [apply (Hone _ 9%nat); vm_compute; reflexivity |].
  apply Forall2_cons; [apply (Hone _ 10%nat); vm_compute; reflexivity |].
  apply Forall2_cons; [apply (Hone _ 11%nat); vm_compute; reflexivity |].
  apply Forall2_cons; [apply (Hone _ 12%nat); vm_compute; reflexivity |].
  apply Forall2_nil.
Qed.

Lemma last_write_app (h : list op) (data : list Byte.byte) :
  last_write (h ++ [ser_write data]) = Some data.
Proof. unfold last_write. rewrite fold_left_app. reflexivity. Qed.

(** The box that rests in a state answers as [rests_at] asks. *)
Lemma resting_box_rests (state : nat) : rests_at (resting_box state) state.
Proof.
  intros h port qb b Hp Hqb Hb.
  split; [discriminate |]. split; [discriminate |].
  unfold resting_box. rewrite last_write_app.
  destruct (query_byte_small port ltac:(lia)) as (qb' & Hqb' & Hval).
  rewrite Hqb in Hqb'. injection Hqb' as <-. rewrite Hval.
  destruct (byte_layout 7 port ltac:(lia) ltac:(lia)) as (Hlow & _ & Hsum).
  change (Z.shiftl 7 5) with 224%Z in Hlow, Hsum.
  replace (224 + port)%Z with (Z.lor 224 port) by lia.
  rewrite Hlow, Hb. reflexivity.
Qed.

(** X11. With the default port names and a known default state,
    [set_ports_to_default] writes nothing but query bytes and the position
    byte of that state for ports 0 to 15, the latter at most 16 times,
    whatever the box answers. *)
Theorem set_ports_to_default_traffic (default_pos : String.string)
        (state : nat) (dev : serial) (h : list op) :
  index default_pos lestates = Some state ->
  exists calls,
    snd (set_ports_to_default default_ports default_pos dev h) = h ++ calls /\
    Forall (is_default_call state) calls /\
    (List.length (filter is_position_write calls) <= 16)%nat.
Proof.
  intros Hidx.
  apply (set_ports_traffic default_ports default_pos state dev (seq 1 16) Hidx
           default_ports_known h).
Qed.

Lemma set_ports_to_default_traffic_witness :
  exists calls,
    snd (set_ports_to_default default_ports "Pground"%string
           (stuck_box [Byte.x00]) []) = calls /\
    Forall (is_default_call 2) calls.
Proof.
  destruct (set_ports_to_default_traffic "Pground"%string 2
              (stuck_box [Byte.x00]) [] eq_refl) as (calls & Hlog & Hall & _).
  exists calls. split; [exact Hlog | exact Hall].
Defined.

(** X12. With a default that is not one of the five state names
    [set_ports_to_default] always raises, [ValueError] once the first port
    has been read or [AssertionError] when it cannot be read, and writes no
    position byte: all it has sent are queries for port 0. *)
Theorem set_ports_to_default_unknown_name (default_pos : String.string)
        (dev : serial) (h : list op) :
  ~ In default_pos lestates ->
  exists e calls,
    set_ports_to_default default_ports default_pos dev h = (Raise e, h ++ calls) /\
    (e = ValueError \/ e = AssertionError) /\
    Forall (is_query_call 0) calls.
Proof.
  intros Hnot.
  exact (set_ports_unknown_default default_ports default_pos 1 (seq 2 15) 0
           dev h default_ports_first Hnot).
Qed.

Lemma set_ports_to_default_unknown_name_witness :
  exists e calls,
    set_ports_to_default default_ports "Pfloat"%string (stuck_box [Byte.x20]) []
    = (Raise e, calls) /\
    Forall (is_query_call 0) calls.
Proof.
  destruct (set_ports_to_default_unknown_name "Pfloat"%string
              (stuck_box [Byte.x20]) []) as (e & calls & Hrun & _ & Hq).
  - simpl. intros [E | [E | [E | [E | [E | []]]]]]; discriminate.
  - exists e, calls. split; [exact Hrun | exact Hq].
Defined.

(** X13. When all sixteen ports already sit in the default state and the
    box answers every query, [set_ports_to_default] returns after sixteen
    queries and writes no position byte; the ports are visited in the order
    0 to 8, 13, 14, 15, 9 to 12 of their numbers. *)
Theorem set_ports_to_default_in_place (default_pos : String.string)
        (state : nat) (dev : serial) (h : list op) :
  index default_pos lestates = Some state ->
  rests_at dev state ->
  set_ports_to_default default_ports default_pos dev h
  = (Return tt,
     h ++ flat_map query_calls
            [Byte.xe0; Byte.xe1; Byte.xe2; Byte.xe3; Byte.xe4; Byte.xe5;
             Byte.xe6; Byte.xe7; Byte.xe8; Byte.xed; Byte.xee; Byte.xef;
             Byte.xe9; Byte.xea; Byte.xeb; Byte.xec]).
Proof.
  intros Hidx Hrest.
  exact (set_ports_in_place default_ports default_pos state dev Hidx Hrest
           _ _ default_ports_queries h).
Qed.

Lemma set_ports_to_default_in_place_witness :
  set_ports_to_default default_ports "Pground"%string (resting_box 2) []
  = (Return tt,
     flat_map query_calls
       [Byte.xe0; Byte.xe1; Byte.xe2; Byte.xe3; Byte.xe4; Byte.xe5;
        Byte.xe6; Byte.xe7; Byte.xe8; Byte.xed; Byte.xee; Byte.xef;
        Byte.xe9; Byte.xea; Byte.xeb; Byte.xec]).
Proof.
  apply (set_ports_to_default_in_place "Pground"%string 2 (resting_box 2) []).
  - reflexivity.
  - apply resting_box_rests.
Defined.
End DCBoxFacts.
